(** * The raster image encoder of [escpos.commandset.generic]

    A shallow embedding of the three methods of class [Generic] that turn a
    decoded image into the ESC/POS raster command:

    - [_check_image_size]: the padding calculator,
    - [_convert_and_print_image]: validation, threshold/dither scan,
    - [_print_image]: preamble, header and 4-byte grouped data writes.

    The module is Python 2 code ([str.decode('hex')], integer [/]): a [str]
    is a byte string, [/] on integers is floor division.  Integers are [Z],
    byte strings are lists of 8-bit characters, the printer is the log of
    the [_write] calls together with what was printed on standard output,
    and exceptions are an explicit outcome. *)

From Stdlib Require Import ZArith String Ascii List Lia Bool DecimalString.
Import ListNotations.
Open Scope Z_scope.

(** ** Python values *)

Definition str := list ascii.

Definition lit (s : string) : str := list_ascii_of_string s.

Definition chr (v : Z) : ascii := ascii_of_N (Z.to_N v).

Definition ord (c : ascii) : Z := Z.of_N (N_of_ascii c).

(** [range(n)]: empty when [n <= 0]. *)
Definition range (n : Z) : list Z := map Z.of_nat (seq 0 (Z.to_nat n)).

(** [s[i:j]] for [0 <= i <= j]; like Python it stops at the end of [s]. *)
Definition slice (s : str) (i j : Z) : str :=
  firstn (Z.to_nat (j - i)) (skipn (Z.to_nat i) s).

Inductive exn : Type :=
| ValueError (msg : string)
| ZeroDivisionError
| TypeError (msg : string).

(** [a / b] on Python 2 integers. *)
Definition py_div (a b : Z) : exn + Z :=
  if b =? 0 then inl ZeroDivisionError else inr (a / b).

(** *** [int(s, 2)]

    Digit strings only: the sign, blanks and the [0b] prefix that [int] also
    accepts never occur in the strings the encoder builds, and are reported
    as the error here. *)

Definition bit_value (c : ascii) : option Z :=
  if Ascii.eqb c "0" then Some 0
  else if Ascii.eqb c "1" then Some 1
  else None.

Fixpoint int2_acc (s : str) (acc : Z) : option Z :=
  match s with
  | [] => Some acc
  | c :: s' =>
      match bit_value c with
      | Some b => int2_acc s' (2 * acc + b)
      | None => None
      end
  end.

Definition int_base2 (s : str) : exn + Z :=
  match s with
  | [] => inl (ValueError "invalid literal for int() with base 2")
  | _ =>
      match int2_acc s 0 with
      | Some v => inr v
      | None => inl (ValueError "invalid literal for int() with base 2")
      end
  end.

(** *** ["%02X" % v] and ["%d" % v] *)

Definition hex_digit (d : Z) : ascii :=
  nth (Z.to_nat d) (lit "0123456789ABCDEF") "0"%char.

Fixpoint hex_digits (fuel : nat) (v : Z) : str :=
  match fuel with
  | O => []
  | S fuel' =>
      if v <? 16 then [hex_digit v]
      else hex_digits fuel' (v / 16) ++ [hex_digit (v mod 16)]
  end.

(** Upper-case hexadecimal digits of [v >= 0], no leading zero. *)
Definition to_hex (v : Z) : str := hex_digits (S (Z.to_nat (Z.log2 v))) v.

Definition zero_pad (width : nat) (s : str) : str :=
  repeat "0"%char (width - length s) ++ s.

(** The sign takes part in the minimal width of two. *)
Definition fmt_02X (v : Z) : str :=
  if v <? 0 then "-"%char :: to_hex (- v) else zero_pad 2 (to_hex v).

Definition fmt_d (v : Z) : str :=
  list_ascii_of_string (NilZero.string_of_int (Z.to_int v)).

(** *** [s.decode('hex')]

    [binascii.a2b_hex]: pairs of hexadecimal digits of either case; an odd
    length or another character is a [TypeError]. *)

Definition unhex (c : ascii) : option Z :=
  let n := ord c in
  if (48 <=? n) && (n <=? 57) then Some (n - 48)
  else if (65 <=? n) && (n <=? 70) then Some (n - 55)
  else if (97 <=? n) && (n <=? 102) then Some (n - 87)
  else None.

Fixpoint a2b_hex (s : str) : option str :=
  match s with
  | [] => Some []
  | [_] => None
  | h :: l :: s' =>
      match unhex h, unhex l, a2b_hex s' with
      | Some a, Some b, Some r => Some (chr (16 * a + b) :: r)
      | _, _, _ => None
      end
  end.

Definition decode_hex (s : str) : exn + str :=
  match a2b_hex s with
  | Some b => inr b
  | None => inl (TypeError "Odd-length string or non-hexadecimal digit")
  end.

(** ** The printer and the monad of the methods

    [written] is the sequence of [_write] calls, oldest first; [stdout] the
    lines printed.  A raised exception keeps what was written before it. *)

Record printer : Type := { written : list str; stdout : list string }.

Inductive result (A : Type) : Type :=
| Ok (a : A)
| Raise (e : exn)
| OutOfFuel.

Arguments Ok {A} a.
Arguments Raise {A} e.
Arguments OutOfFuel {A}.

Definition M (A : Type) : Type := printer -> printer * result A.

Definition ret {A} (a : A) : M A := fun p => (p, Ok a).

Definition bind {A B} (c : M A) (k : A -> M B) : M B :=
  fun p =>
    match c p with
    | (p', Ok a) => k a p'
    | (p', Raise e) => (p', Raise e)
    | (p', OutOfFuel) => (p', OutOfFuel)
    end.

Definition raise {A} (e : exn) : M A := fun p => (p, Raise e).

Definition lift {A} (r : exn + A) : M A :=
  match r with
  | inl e => raise e
  | inr a => ret a
  end.

Notation "x <- c ;; k" := (bind c (fun x => k))
  (at level 61, c at next level, right associativity).
Notation "c ;; k" := (bind c (fun _ => k))
  (at level 61, right associativity).

Definition _write (data : str) : M unit :=
  fun p => ({| written := written p ++ [data]; stdout := stdout p |}, Ok tt).

Definition print (s : string) : M unit :=
  fun p => ({| written := written p; stdout := stdout p ++ [s] |}, Ok tt).

(** ** Class constants *)

(** [_image_size['1x1'] = '\x1d\x76\x30\x00']. *)
Definition _image_size_1x1 : str := [chr 29; chr 118; chr 48; chr 0].

(** ** [_check_image_size] *)

Definition _check_image_size (size : Z) : Z * Z :=
  if size mod 32 =? 0 then (0, 0)
  else
    let image_border := 32 - (size mod 32) in
    if image_border mod 2 =? 0 then (image_border / 2, image_border / 2)
    else (image_border / 2, image_border / 2 + 1).

(** ** [_print_image] *)

(** The [while i < len(line)] loop on the locals [i], [cont] and [buffer].
    Every iteration adds 8 to [i], so [S (length line)] calls are enough;
    [print_image_loop_fuel] below proves that the fuel never runs out. *)
Fixpoint print_image_loop (fuel : nat) (line : str) (i cont : Z) (buffer : str)
  : M (Z * Z * str) :=
  match fuel with
  | O => fun p => (p, OutOfFuel)
  | S fuel' =>
      if i <? Z.of_nat (length line) then
        hex_string <- lift (int_base2 (slice line i (i + 8))) ;;
        let buffer := buffer ++ fmt_02X hex_string in
        let i := i + 8 in
        let cont := cont + 1 in
        if cont mod 4 =? 0 then
          data <- lift (decode_hex buffer) ;;
          _write data ;;
          print_image_loop fuel' line i 0 []
        else print_image_loop fuel' line i cont buffer
      else ret (i, cont, buffer)
  end.

Definition _print_image (line : str) (size : Z * Z) : M unit :=
  let i := 0 in
  let cont := 0 in
  _write _image_size_1x1 ;;
  q <- lift (py_div (fst size) (snd size)) ;;
  let buffer := fmt_02X (q / 8) ++ fmt_02X 0 ++ fmt_02X (snd size) ++ fmt_02X 0 in
  data <- lift (decode_hex buffer) ;;
  _write data ;;
  let buffer := [] in
  print_image_loop (S (length line)) line i cont buffer ;;
  ret tt.

(** ** [_convert_and_print_image] *)

(** A PIL image in mode RGB: [size = (width, height)] and [getpixel]. *)
Record image : Type := { size : Z * Z; getpixel : Z * Z -> Z * Z * Z }.

(** The locals the scan updates. *)
Record locals : Type := { pix_line : str; switch : Z; img_size : Z * Z }.

Definition im_pattern : str := lit "1X0".

Definition pattern_len : Z := Z.of_nat (length im_pattern).

(** The inner [for x in range(pattern_len)] with its two [break]s. *)
Fixpoint threshold_loop (xs : list Z) (im_color sw : Z) (line : str) : str :=
  match xs with
  | [] => line
  | x :: xs' =>
      if im_color <=? 255 * 3 / pattern_len * (x + 1) then
        if Ascii.eqb (nth (Z.to_nat x) im_pattern "0"%char) "X"
        then line ++ fmt_d sw
        else line ++ [nth (Z.to_nat x) im_pattern "0"%char]
      else if (im_color >? 255 * 3 / pattern_len * pattern_len)
              && (im_color <=? 255 * 3)
      then line ++ [last im_pattern "0"%char]
      else threshold_loop xs' im_color sw line
  end.

(** Body of [for x in range(im.size[0])]. *)
Definition convert_pixel (im : image) (y : Z) (st : locals) (x : Z) : locals :=
  let size0 := fst (img_size st) + 1 in
  let '(r, g, b) := getpixel im (x, y) in
  let im_color := r + g + b in
  let sw := (switch st - 1) * (-1) in
  {| pix_line := threshold_loop (range pattern_len) im_color sw (pix_line st);
     switch := sw;
     img_size := (size0, snd (img_size st)) |}.

(** Body of [for y in range(im.size[1])]. *)
Definition convert_row (im : image) (im_border : Z * Z) (im_left im_right : str)
    (st : locals) (y : Z) : locals :=
  let st1 :=
    {| pix_line := pix_line st ++ im_left;
       switch := switch st;
       img_size := (fst (img_size st) + fst im_border, snd (img_size st) + 1) |} in
  let st2 := fold_left (convert_pixel im y) (range (fst (size im))) st1 in
  {| pix_line := pix_line st2 ++ im_right;
     switch := switch st2;
     img_size := (fst (img_size st2) + snd im_border, snd (img_size st2)) |}.

(** [for i in range(n): s += "0"]. *)
Definition zeros (n : Z) : str :=
  fold_left (fun s _ => s ++ lit "0") (range n) [].

(** Everything between the validation and the call of [_print_image]. *)
Definition convert (im : image) : locals :=
  let im_border := _check_image_size (fst (size im)) in
  let im_left := zeros (fst im_border) in
  let im_right := zeros (snd im_border) in
  fold_left (convert_row im im_border im_left im_right)
    (range (snd (size im)))
    {| pix_line := []; switch := 0; img_size := (0, 0) |}.

Definition _convert_and_print_image (im : image) : M unit :=
  (if fst (size im) >? 512
   then print "WARNING: Image is wider than 512 and could be truncated at print time "
   else ret tt) ;;
  (if snd (size im) >? 255
   then raise (ValueError "Image Height larger than 255")
   else ret tt) ;;
  let st := convert im in
  _print_image (pix_line st) (img_size st).

(** ** Vocabulary of the properties *)

Definition fresh : printer := {| written := []; stdout := [] |}.

(** The printer after the further [_write] calls [ws]. *)
Definition add_writes (p : printer) (ws : list str) : printer :=
  {| written := written p ++ ws; stdout := stdout p |}.

Definition width (im : image) : Z := fst (size im).

Definition height (im : image) : Z := snd (size im).

Definition leftBits (im : image) : Z := fst (_check_image_size (width im)).

Definition rightBits (im : image) : Z := snd (_check_image_size (width im)).

Definition totalPaddedWidth (im : image) : Z :=
  leftBits im + width im + rightBits im.

(** Sum of the three channels of the pixel at [(x, y)]. *)
Definition luminance (im : image) (x y : Z) : Z :=
  let '(r, g, b) := getpixel im (x, y) in r + g + b.

Definition channels_ok (rgb : Z * Z * Z) : Prop :=
  let '(r, g, b) := rgb in
  0 <= r <= 255 /\ 0 <= g <= 255 /\ 0 <= b <= 255.

(** A PIL image: sizes are not negative; every pixel is an RGB triple of
    bytes. *)
Definition pixel_grid (im : image) : Prop :=
  0 <= width im /\ 0 <= height im /\
  forall x y, 0 <= x < width im -> 0 <= y < height im ->
              channels_ok (getpixel im (x, y)).

Definition all_pixels (im : image) (rgb : Z * Z * Z) : Prop :=
  forall x y, 0 <= x < width im -> 0 <= y < height im ->
              getpixel im (x, y) = rgb.

Definition is_bit (c : ascii) : Prop := c = "0"%char \/ c = "1"%char.

Definition bits (line : str) : Prop := Forall is_bit line.

(** The image with the same colour everywhere. *)
Definition uniform (w h : Z) (rgb : Z * Z * Z) : image :=
  {| size := (w, h); getpixel := fun _ => rgb |}.

(** The bits of a row-major bit stream that are not padding: of each row of
    [l + w + r] bits, the [w] after the first [l]. *)
Fixpoint non_padding (rows l w r : nat) (line : str) : str :=
  match rows with
  | O => []
  | S k => firstn w (skipn l line) ++ non_padding k l w r (skipn (l + w + r) line)
  end.

(** The padding bits: of each row, the first [l] and the last [r]. *)
Fixpoint padding (rows l w r : nat) (line : str) : str :=
  match rows with
  | O => []
  | S k =>
      firstn l line ++ firstn r (skipn (l + w) line)
      ++ padding k l w r (skipn (l + w + r) line)
  end.

(** [1, 0, 1, 0, ...], [n] bits. *)
Definition alternating (n : nat) : str :=
  map (fun k => if Nat.even k then "1"%char else "0"%char) (seq 0 n).

(** The flag after [n] toggles. *)
Fixpoint flips (n : nat) (sw : Z) : Z :=
  match n with
  | O => sw
  | S k => flips k ((sw - 1) * (-1))
  end.

(** Bits that consecutive middle-band pixels get, the flag being [sw]
    before the first of them. *)
Fixpoint toggled (n : nat) (sw : Z) : str :=
  match n with
  | O => []
  | S k => fmt_d ((sw - 1) * (-1)) ++ toggled k ((sw - 1) * (-1))
  end.

(** Re-expansion of a byte into its 8 bits, most significant first. *)
Definition expand_byte (c : ascii) : str :=
  map (fun k => if Z.testbit (ord c) k then "1"%char else "0"%char)
      [7; 6; 5; 4; 3; 2; 1; 0].

Definition expand (bytes : str) : str := flat_map expand_byte bytes.

(** The bytes the framer forms from [line]: the data it writes, in order,
    followed by the bytes still in [buffer] when the loop ends. *)
Definition framer_bytes (line : str) : option str :=
  match print_image_loop (S (length line)) line 0 0 [] fresh with
  | (p, Ok (_, _, buffer)) =>
      match a2b_hex buffer with
      | Some rest => Some (concat (written p) ++ rest)
      | None => None
      end
  | _ => None
  end.

(** The data writes of [_print_image]: what follows preamble and header. *)
Definition data_writes (p : printer) : list str := skipn 2 (written p).

(** The header fields fit their bytes: the division is defined, the row
    byte count and the height are below 256. *)
Definition header_ok (size : Z * Z) : Prop :=
  snd size <> 0 /\ 0 <= fst size / snd size / 8 < 256 /\ 0 <= snd size < 256.

(** The four header bytes [_print_image] writes for [size]. *)
Definition header_of (size : Z * Z) : str :=
  [chr (fst size / snd size / 8); chr 0; chr (snd size); chr 0].

(** The printer once the width check has run: a width over 512 prints the
    warning and nothing else happens. *)
Definition warned (im : image) (p : printer) : printer :=
  if width im >? 512
  then {| written := written p;
          stdout := stdout p ++
            ["WARNING: Image is wider than 512 and could be truncated at print time "%string] |}
  else p.

(** Validation lets [im] through: the one check that raises, on the height,
    does not. *)
Definition accepted (im : image) : Prop := height im <= 255.

(** [im] is rejected and the sink has received nothing more. *)
Definition rejected_unwritten (im : image) (p : printer) : Prop :=
  (exists e, snd (_convert_and_print_image im p) = Raise e)
  /\ written (fst (_convert_and_print_image im p)) = written p.

(** The write that follows the preamble is a 4-byte header whose first byte
    is [v]. *)
Definition header_first_byte (im : image) (p : printer) (v : Z) : Prop :=
  exists b0 b1 b2 b3 rest,
    written (fst (_convert_and_print_image im p))
    = written p ++ _image_size_1x1 :: [b0; b1; b2; b3] :: rest
    /\ ord b0 = v.

(** Every byte the framer forms from [line] is in its data writes. *)
Definition all_bytes_written (line : str) (size : Z * Z) : Prop :=
  exists bytes,
    framer_bytes line = Some bytes
    /\ concat (data_writes (fst (_print_image line size fresh))) = bytes.

(** *** Closed forms used in the proofs *)

(** The bit the threshold loop appends for a channel sum, by band. *)
Definition band_bits (im_color sw : Z) : str :=
  if im_color <=? 255 then ["1"%char]
  else if im_color <=? 510 then fmt_d sw
  else if im_color <=? 765 then ["0"%char]
  else [].

(** Bits of the pixels [xs] of row [y], the flag being [sw] before. *)
Fixpoint scan_bits (im : image) (y : Z) (xs : list Z) (sw : Z) : str :=
  match xs with
  | [] => []
  | x :: xs' =>
      band_bits (luminance im x y) ((sw - 1) * (-1))
      ++ scan_bits im y xs' ((sw - 1) * (-1))
  end.

(** Bits of the rows [ys], padding included. *)
Fixpoint scan_rows (im : image) (left right : str) (ys : list Z) (sw : Z) : str :=
  match ys with
  | [] => []
  | y :: ys' =>
      (left ++ scan_bits im y (range (width im)) sw ++ right)
      ++ scan_rows im left right ys' (flips (Z.to_nat (width im)) sw)
  end.

(** The pixel bits of the rows [ys], without the padding. *)
Fixpoint payload (im : image) (ys : list Z) (sw : Z) : str :=
  match ys with
  | [] => []
  | y :: ys' =>
      scan_bits im y (range (width im)) sw
      ++ payload im ys' (flips (Z.to_nat (width im)) sw)
  end.

(** Value of a string of binary digits. *)
Definition bin_value (s : str) : Z :=
  match int2_acc s 0 with
  | Some v => v
  | None => 0
  end.

(** Values of the first [n] 8-character slices. *)
Fixpoint chunk_values (n : nat) (line : str) : list Z :=
  match n with
  | O => []
  | S k => bin_value (firstn 8 line) :: chunk_values k (skipn 8 line)
  end.

Definition hex_of (vs : list Z) : str := flat_map fmt_02X vs.

(** The grouping of the loop on byte values: the writes, and the values left
    in the buffer. *)
Fixpoint group4 (pend vs : list Z) : list str * list Z :=
  match vs with
  | [] => ([], pend)
  | v :: vs' =>
      if (length (pend ++ [v]) =? 4)%nat
      then (map chr (pend ++ [v]) :: fst (group4 [] vs'), snd (group4 [] vs'))
      else group4 (pend ++ [v]) vs'
  end.

(** Two digits that decode to [v]: checked on all byte values. *)
Definition byte_hex_ok (v : Z) : bool :=
  match fmt_02X v with
  | [h; l] =>
      match unhex h, unhex l with
      | Some a, Some b => (16 * a + b =? v)
      | _, _ => false
      end
  | _ => false
  end.

(** ** The command methods

    Arguments that the methods test with [type(x) is ...] are dynamically
    typed values: a Python 2 [int], [long] or [bool].  All three compare and
    compute as numbers; only the type tests tell them apart. *)

Inductive pyval : Type :=
| PInt (z : Z)
| PLong (z : Z)
| PBool (b : bool).

Definition num (v : pyval) : Z :=
  match v with
  | PInt z => z
  | PLong z => z
  | PBool b => if b then 1 else 0
  end.

(** [type(v) is int] *)
Definition type_is_int (v : pyval) : bool :=
  match v with
  | PInt _ => true
  | _ => false
  end.

(** [type(v) is bool] *)
Definition type_is_bool (v : pyval) : bool :=
  match v with
  | PBool _ => true
  | _ => false
  end.

(** Truth value, as in [if v]. *)
Definition truth (v : pyval) : bool := negb (num v =? 0).

(** [str(v)] *)
Definition py_str (v : pyval) : string :=
  match v with
  | PInt z => NilZero.string_of_int (Z.to_int z)
  | PLong z => NilZero.string_of_int (Z.to_int z)
  | PBool true => "True"
  | PBool false => "False"
  end.

(** [chr(n)] for a small integer: a [ValueError] outside [range(256)]. *)
Definition py_chr (n : Z) : exn + ascii :=
  if (0 <=? n) && (n <? 256) then inr (chr n)
  else inl (ValueError "chr() arg not in range(256)").

Fixpoint str_eqb (a b : str) : bool :=
  match a, b with
  | [], [] => true
  | x :: a', y :: b' => Ascii.eqb x y && str_eqb a' b'
  | _, _ => false
  end.

(** [s in l] for a list of strings. *)
Definition str_in (s : str) (l : list str) : bool := existsb (str_eqb s) l.

Definition _ESC : str := [chr 27].

Definition _GS : str := [chr 29].

Definition _SP : str := [chr 32].

(** [_fontMap = {'a': '\x00', 'b': '\x01', 'c': '\x02'}]; the lookup is only
    made for a key that is present. *)
Definition _fontMap (font : str) : str :=
  if str_eqb font (lit "a") then [chr 0]
  else if str_eqb font (lit "b") then [chr 1]
  else [chr 2].

Definition _fontMap_keys : list str := [lit "a"; lit "b"; lit "c"].

(** The attributes of a [Generic] object that the methods read and set. *)
Record generic : Type := {
  usePrintMode : bool;
  _textFont : str;
  _textBold : bool;
  _textUnderline : bool;
  _textDoubleHeight : bool;
  _textDoubleWidth : bool
}.

(** The class attributes, before any method has run. *)
Definition Generic : generic :=
  {| usePrintMode := false;
     _textFont := lit "a";
     _textBold := false;
     _textUnderline := false;
     _textDoubleHeight := false;
     _textDoubleWidth := false |}.

Definition flag (b : bool) : str := if b then lit "1" else lit "0".

Definition _updatePrintMode (self : generic) : M unit :=
  let value :=
    flag (str_eqb (_textFont self) (lit "b")) ++ lit "00"
    ++ flag (_textBold self) ++ flag (_textDoubleHeight self)
    ++ flag (_textDoubleWidth self) ++ flag (_textUnderline self) in
  n <- lift (int_base2 value) ;;
  c <- lift (py_chr n) ;;
  _write (_ESC ++ lit "!" ++ [c]).

Definition bold (self : generic) (v : pyval) : M generic :=
  if negb (type_is_bool v) then raise (ValueError "bold must be True or False")
  else if usePrintMode self then
    let self' :=
      {| usePrintMode := usePrintMode self;
         _textFont := _textFont self;
         _textBold := truth v;
         _textUnderline := _textUnderline self;
         _textDoubleHeight := _textDoubleHeight self;
         _textDoubleWidth := _textDoubleWidth self |} in
    _updatePrintMode self' ;; ret self'
  else if truth v then _write (_ESC ++ lit "E" ++ [chr 1]) ;; ret self
  else _write (_ESC ++ lit "E" ++ [chr 0]) ;; ret self.

(** No branch for [usePrintMode = False]: the method then returns [None]
    without a write. *)
Definition doubleHeight (self : generic) (v : pyval) : M generic :=
  if negb (type_is_bool v)
  then raise (ValueError "doubleHeight must be True or False")
  else if usePrintMode self then
    let self' :=
      {| usePrintMode := usePrintMode self;
         _textFont := _textFont self;
         _textBold := _textBold self;
         _textUnderline := _textUnderline self;
         _textDoubleHeight := truth v;
         _textDoubleWidth := _textDoubleWidth self |} in
    _updatePrintMode self' ;; ret self'
  else ret self.

Definition doubleWidth (self : generic) (v : pyval) : M generic :=
  if negb (type_is_bool v)
  then raise (ValueError "doubleWidth must be True or False")
  else if usePrintMode self then
    let self' :=
      {| usePrintMode := usePrintMode self;
         _textFont := _textFont self;
         _textBold := _textBold self;
         _textUnderline := _textUnderline self;
         _textDoubleHeight := _textDoubleHeight self;
         _textDoubleWidth := truth v |} in
    _updatePrintMode self' ;; ret self'
  else ret self.

Definition underline (self : generic) (v doubleDot : pyval) : M generic :=
  if negb (type_is_bool v)
  then raise (ValueError "underline must be True or False")
  else if negb (type_is_bool doubleDot)
  then raise (ValueError "doubleDot must be True or False")
  else if usePrintMode self then
    let self' :=
      {| usePrintMode := usePrintMode self;
         _textFont := _textFont self;
         _textBold := _textBold self;
         _textUnderline := truth v;
         _textDoubleHeight := _textDoubleHeight self;
         _textDoubleWidth := _textDoubleWidth self |} in
    _updatePrintMode self' ;; ret self'
  else if truth v && truth doubleDot
  then _write (_ESC ++ lit "-" ++ [chr 2]) ;; ret self
  else if truth v then _write (_ESC ++ lit "-" ++ [chr 1]) ;; ret self
  else _write (_ESC ++ lit "-" ++ [chr 0]) ;; ret self.

Definition font (self : generic) (f : str) : M generic :=
  if negb (str_in f _fontMap_keys)
  then raise (ValueError "font must be 'a', 'b', 'c'")
  else if usePrintMode self then
    let self' :=
      {| usePrintMode := usePrintMode self;
         _textFont := f;
         _textBold := _textBold self;
         _textUnderline := _textUnderline self;
         _textDoubleHeight := _textDoubleHeight self;
         _textDoubleWidth := _textDoubleWidth self |} in
    _updatePrintMode self' ;; ret self'
  else _write (_ESC ++ lit "M" ++ _fontMap f) ;; ret self.

Definition charSpacing (v : pyval) : M unit :=
  if negb ((0 <? num v) && (num v <? 257)) || negb (type_is_int v)
  then raise (ValueError "charSpacing must be a int between 1 and 256")
  else
    c <- lift (py_chr (num v - 1)) ;;
    _write (_ESC ++ _SP ++ [c]).


Definition cutPaper (cut : str) (feed : pyval) : M unit :=
  if negb (str_in cut [lit "partial"; lit "full"])
  then raise (ValueError "cut must be 'partial' or 'full'")
  else if negb (type_is_bool feed)
  then raise (ValueError "feed must be True or False")
  else
    let value := if str_eqb cut (lit "full") then 0 else 1 in
    let value := value + (if truth feed then 65 else 0) in
    c <- lift (py_chr value) ;;
    _write (_GS ++ lit "V" ++ [c]).

Definition horizontalPosition (v : pyval) : M unit :=
  if negb ((0 <=? num v) && (num v <=? 4095)) || negb (type_is_int v)
  then raise (ValueError
                ("horizontalPosition must be a int between 0 and 4095 and not "
                 ++ py_str v))
  else
    let nH := Z.shiftr (num v) 8 in
    let nL := num v - Z.shiftl nH 8 in
    cL <- lift (py_chr nL) ;;
    cH <- lift (py_chr nH) ;;
    _write (_ESC ++ lit "$" ++ [cL] ++ [cH]).

Definition leftMargin (v : pyval) : M unit :=
  if negb ((0 <=? num v) && (num v <=? 65535)) || negb (type_is_int v)
  then raise (ValueError "leftMargin must be a int between 0 and 65535")
  else
    let nH := Z.shiftr (num v) 8 in
    let nL := num v - Z.shiftl nH 8 in
    cL <- lift (py_chr nL) ;;
    cH <- lift (py_chr nH) ;;
    _write (_GS ++ lit "L" ++ [cL] ++ [cH]).

Definition lineSpacing (v : pyval) (commandSet : str) : M unit :=
  if negb (str_in commandSet [lit "+"; lit "3"; lit "A"])
  then raise (ValueError "commandSet must be either '+', '3' or 'A'")
  else if (str_eqb commandSet (lit "+") || str_eqb commandSet (lit "3"))
          && (negb ((0 <=? num v) && (num v <=? 255)) || negb (type_is_int v))
  then raise (ValueError
                "lineSpacing must be a int between 0 and 255 when commandSet is '+' or '3'")
  else if str_eqb commandSet (lit "A")
          && (negb ((0 <=? num v) && (num v <=? 85)) || negb (type_is_int v))
  then raise (ValueError
                "lineSpacing must be a int between 0 and 85 when commandSet is 'A'")
  else
    c <- lift (py_chr (num v)) ;;
    _write (_ESC ++ commandSet ++ [c]).

(** No test of the range: only [chr] stands between the value and the
    sink. *)
Definition printAreaWidth (v : pyval) : M unit :=
  if negb (type_is_int v) then raise (ValueError "width must be a int")
  else
    let nH := Z.shiftr (num v) 8 in
    let nL := num v - Z.shiftl nH 8 in
    cL <- lift (py_chr nL) ;;
    cH <- lift (py_chr nH) ;;
    _write (_GS ++ lit "W" ++ [cL] ++ [cH]).

Definition textSize (h w : pyval) : M unit :=
  if negb ((0 <? num h) && (num h <? 17)) || negb (type_is_int h)
  then raise (ValueError "height must be a int between 1 and 16")
  else if negb ((0 <? num w) && (num w <? 17)) || negb (type_is_int w)
  then raise (ValueError "textWidth must be a int between 1 and 16")
  else
    let size := Z.lor (Z.shiftl (num w - 1) 4) (num h - 1) in
    c <- lift (py_chr size) ;;
    _write (_GS ++ lit "!" ++ [c]).

(** The byte [_updatePrintMode] sends for the attributes of [self]. *)
Definition mode_byte (self : generic) : Z :=
  64 * (if str_eqb (_textFont self) (lit "b") then 1 else 0)
  + 8 * (if _textBold self then 1 else 0)
  + 4 * (if _textDoubleHeight self then 1 else 0)
  + 2 * (if _textDoubleWidth self then 1 else 0)
  + (if _textUnderline self then 1 else 0).

(** Checked on all pairs of sizes: the two nibbles do not overlap. *)
Definition nibbles_ok (hw : Z * Z) : bool :=
  Z.lor (Z.shiftl (snd hw) 4) (fst hw) =? 16 * snd hw + fst hw.

(** Checked on all values of three hexadecimal digits. *)
Definition hex3_ok (v : Z) : bool :=
  (v <? 256) || (length (fmt_02X v) =? 3)%nat.

(** * Properties *)

(** ** Python primitives *)

Lemma fmt_d_0 : fmt_d 0 = ["0"%char].
Proof. reflexivity. Qed.

Lemma fmt_d_1 : fmt_d 1 = ["1"%char].
Proof. reflexivity. Qed.

Lemma byte_hex_all : forallb byte_hex_ok (range 256) = true.
Proof. vm_compute. reflexivity. Qed.

Lemma in_range (n v : Z) : 0 <= v < n -> In v (range n).
Proof.
  intros H. unfold range. apply in_map_iff. exists (Z.to_nat v). split.
  - lia.
  - apply in_seq. lia.
Qed.

Lemma a2b_hex_byte (v : Z) (s : str) :
  0 <= v < 256 ->
  a2b_hex (fmt_02X v ++ s) = option_map (cons (chr v)) (a2b_hex s).
Proof.
  intros Hv.
  pose proof (proj1 (forallb_forall _ _) byte_hex_all v (in_range 256 v Hv)) as H.
  unfold byte_hex_ok in H.
  destruct (fmt_02X v) as [|h [|l [|]]]; try discriminate.
  cbn [app a2b_hex].
  destruct (unhex h); try discriminate.
  destruct (unhex l); try discriminate.
  apply Z.eqb_eq in H. rewrite H.
  destruct (a2b_hex s); reflexivity.
Qed.

Lemma a2b_hex_hex_of (vs : list Z) :
  Forall (fun v => 0 <= v < 256) vs -> a2b_hex (hex_of vs) = Some (map chr vs).
Proof.
  induction 1 as [|v vs Hv _ IH]; [reflexivity|].
  cbn [hex_of flat_map]. rewrite a2b_hex_byte by assumption.
  fold (hex_of vs). rewrite IH. reflexivity.
Qed.

(** ** The padding calculator *)

Lemma check_image_size_cases (w : Z) :
  let '(l, r) := _check_image_size w in
  0 <= l /\ 0 <= r /\ (l + w + r) mod 32 = 0 /\ (r - l = 0 \/ r - l = 1)
  /\ l + r < 32.
Proof.
  unfold _check_image_size.
  pose proof (Z.mod_pos_bound w 32 ltac:(lia)) as Hm.
  pose proof (Z.div_mod w 32 ltac:(lia)) as Hd.
  destruct (Z.eqb_spec (w mod 32) 0) as [E|E].
  - repeat split; try lia. rewrite Z.add_0_l, Z.add_0_r. exact E.
  - set (b := 32 - w mod 32).
    assert (Hb : 0 < b <= 31) by (unfold b; lia).
    pose proof (Z.div_mod b 2 ltac:(lia)) as Hb2.
    pose proof (Z.mod_pos_bound b 2 ltac:(lia)) as Hb3.
    destruct (Z.eqb_spec (b mod 2) 0) as [E2|E2].
    + repeat split; try lia.
      replace (b / 2 + w + b / 2) with (32 * (w / 32 + 1)) by (unfold b in *; lia).
      rewrite Z.mul_comm. apply Z.mod_mul. lia.
    + repeat split; try lia.
      replace (b / 2 + w + (b / 2 + 1)) with (32 * (w / 32 + 1)) by (unfold b in *; lia).
      rewrite Z.mul_comm. apply Z.mod_mul. lia.
Qed.

Lemma leftBits_nonneg (im : image) : 0 <= leftBits im.
Proof.
  unfold leftBits. pose proof (check_image_size_cases (width im)) as H.
  destruct (_check_image_size (width im)); cbn. lia.
Qed.

Lemma rightBits_nonneg (im : image) : 0 <= rightBits im.
Proof.
  unfold rightBits. pose proof (check_image_size_cases (width im)) as H.
  destruct (_check_image_size (width im)); cbn. lia.
Qed.

Lemma totalPaddedWidth_mod32 (im : image) : totalPaddedWidth im mod 32 = 0.
Proof.
  unfold totalPaddedWidth, leftBits, rightBits.
  pose proof (check_image_size_cases (width im)) as H.
  destruct (_check_image_size (width im)); cbn. tauto.
Qed.

Lemma totalPaddedWidth_bound (im : image) :
  width im <= totalPaddedWidth im < width im + 32.
Proof.
  unfold totalPaddedWidth, leftBits, rightBits.
  pose proof (check_image_size_cases (width im)) as H.
  destruct (_check_image_size (width im)); cbn. lia.
Qed.

(** ** The scan *)

Lemma range_pattern_len : range pattern_len = [0; 1; 2].
Proof. reflexivity. Qed.

Lemma threshold_loop_band (c sw : Z) (line : str) :
  threshold_loop (range pattern_len) c sw line = line ++ band_bits c sw.
Proof.
  rewrite range_pattern_len. unfold band_bits.
  cbn [threshold_loop].
  change (255 * 3 / pattern_len * (0 + 1)) with 255.
  change (255 * 3 / pattern_len * (1 + 1)) with 510.
  change (255 * 3 / pattern_len * (2 + 1)) with 765.
  change (255 * 3 / pattern_len * pattern_len) with 765.
  change (255 * 3) with 765.
  change (nth (Z.to_nat 0) im_pattern "0"%char) with "1"%char.
  change (nth (Z.to_nat 1) im_pattern "0"%char) with "X"%char.
  change (nth (Z.to_nat 2) im_pattern "0"%char) with "0"%char.
  change (last im_pattern "0"%char) with "0"%char.
  change (Ascii.eqb "1" "X") with false.
  change (Ascii.eqb "X" "X") with true.
  change (Ascii.eqb "0" "X") with false.
  cbv iota.
  destruct (Z.leb_spec c 255); [reflexivity|].
  destruct (Z.leb_spec c 510).
  { destruct (Z.gtb_spec c 765); [lia|]. reflexivity. }
  destruct (Z.leb_spec c 765).
  { destruct (Z.gtb_spec c 765); [lia|]. reflexivity. }
  destruct (Z.gtb_spec c 765); [|lia].
  cbn. rewrite app_nil_r. reflexivity.
Qed.

Lemma convert_pixel_eq (im : image) (y : Z) (st : locals) (x : Z) :
  convert_pixel im y st x =
  {| pix_line := pix_line st ++ band_bits (luminance im x y) ((switch st - 1) * (-1));
     switch := (switch st - 1) * (-1);
     img_size := (fst (img_size st) + 1, snd (img_size st)) |}.
Proof.
  unfold convert_pixel, luminance.
  destruct (getpixel im (x, y)) as [[r g] b].
  rewrite threshold_loop_band. reflexivity.
Qed.

Lemma convert_pixels_eq (im : image) (y : Z) (xs : list Z) (st : locals) :
  fold_left (convert_pixel im y) xs st =
  {| pix_line := pix_line st ++ scan_bits im y xs (switch st);
     switch := flips (length xs) (switch st);
     img_size := (fst (img_size st) + Z.of_nat (length xs), snd (img_size st)) |}.
Proof.
  revert st. induction xs as [|x xs IH]; intros st.
  - cbn. rewrite app_nil_r, Z.add_0_r. destruct st as [l s [a b]]. reflexivity.
  - cbn [fold_left]. rewrite IH, convert_pixel_eq.
    cbn [pix_line switch img_size fst snd scan_bits flips length].
    rewrite <- app_assoc. f_equal. f_equal. lia.
Qed.

Lemma zeros_repeat (n : Z) : zeros n = repeat "0"%char (Z.to_nat n).
Proof.
  unfold zeros, range.
  assert (G : forall k start acc,
             fold_left (fun (s : str) (_ : Z) => s ++ lit "0")
                       (map Z.of_nat (seq start k)) acc
             = acc ++ repeat "0"%char k).
  { induction k as [|k IH]; intros start acc; cbn.
    - now rewrite app_nil_r.
    - rewrite IH, <- app_assoc. reflexivity. }
  apply (G _ 0%nat []).
Qed.

Lemma length_range (n : Z) : length (range n) = Z.to_nat n.
Proof. unfold range. now rewrite length_map, length_seq. Qed.

Lemma convert_row_eq (im : image) (left right : str) (st : locals) (y : Z) :
  convert_row im (_check_image_size (width im)) left right st y =
  {| pix_line := pix_line st ++ left ++ scan_bits im y (range (width im)) (switch st) ++ right;
     switch := flips (Z.to_nat (width im)) (switch st);
     img_size := (fst (img_size st) + leftBits im + Z.of_nat (Z.to_nat (width im))
                  + rightBits im,
                  snd (img_size st) + 1) |}.
Proof.
  unfold convert_row. fold (width im). rewrite convert_pixels_eq.
  cbn [pix_line switch img_size fst snd]. rewrite length_range.
  rewrite <- !app_assoc. reflexivity.
Qed.

Lemma flips_add (a b : nat) (sw : Z) : flips (a + b) sw = flips b (flips a sw).
Proof.
  revert sw. induction a as [|a IH]; intros sw; [reflexivity|].
  cbn. apply IH.
Qed.

Lemma convert_rows_eq (im : image) (left right : str) (ys : list Z) (st : locals) :
  fold_left (convert_row im (_check_image_size (width im)) left right) ys st =
  {| pix_line := pix_line st ++ scan_rows im left right ys (switch st);
     switch := flips (length ys * Z.to_nat (width im)) (switch st);
     img_size := (fst (img_size st)
                  + Z.of_nat (length ys)
                    * (leftBits im + Z.of_nat (Z.to_nat (width im)) + rightBits im),
                  snd (img_size st) + Z.of_nat (length ys)) |}.
Proof.
  revert st. induction ys as [|y ys IH]; intros st.
  - cbn. rewrite app_nil_r, !Z.add_0_r. destruct st as [l s [a b]]. reflexivity.
  - cbn [fold_left]. rewrite IH, convert_row_eq.
    cbn [pix_line switch img_size fst snd scan_rows length].
    rewrite <- !app_assoc. f_equal.
    + change (S (length ys) * Z.to_nat (width im))%nat
        with (Z.to_nat (width im) + length ys * Z.to_nat (width im))%nat.
      now rewrite flips_add.
    + f_equal; lia.
Qed.

(** The locals when [_print_image] is called. *)
Lemma convert_eq (im : image) :
  convert im =
  {| pix_line := scan_rows im (repeat "0"%char (Z.to_nat (leftBits im)))
                   (repeat "0"%char (Z.to_nat (rightBits im)))
                   (range (height im)) 0;
     switch := flips (Z.to_nat (height im) * Z.to_nat (width im)) 0;
     img_size := (Z.of_nat (Z.to_nat (height im))
                  * (leftBits im + Z.of_nat (Z.to_nat (width im)) + rightBits im),
                  Z.of_nat (Z.to_nat (height im))) |}.
Proof.
  unfold convert. fold (width im) (height im).
  rewrite convert_rows_eq, !zeros_repeat, length_range. reflexivity.
Qed.

(** ** Packing *)

Lemma bit_value_bit (c : ascii) :
  is_bit c -> exists b, bit_value c = Some b /\ 0 <= b <= 1.
Proof.
  intros [-> | ->]; [exists 0 | exists 1]; split; try reflexivity; lia.
Qed.

Lemma int2_acc_bits (s : str) :
  bits s ->
  forall acc, exists v,
    int2_acc s acc = Some v
    /\ acc * 2 ^ Z.of_nat (length s) <= v < (acc + 1) * 2 ^ Z.of_nat (length s).
Proof.
  induction 1 as [|c s Hc _ IH]; intros acc.
  - exists acc. cbn. split; [reflexivity | lia].
  - destruct (bit_value_bit c Hc) as (b & Hb & Hb01).
    destruct (IH (2 * acc + b)) as (v & Hv & Hbound).
    exists v. cbn [int2_acc]. rewrite Hb. split; [exact Hv|].
    cbn [length]. rewrite Nat2Z.inj_succ, Z.pow_succ_r by lia.
    assert (0 < 2 ^ Z.of_nat (length s)) by (apply Z.pow_pos_nonneg; lia).
    nia.
Qed.

Lemma int_base2_bits (s : str) :
  bits s -> s <> [] ->
  int_base2 s = inr (bin_value s)
  /\ 0 <= bin_value s < 2 ^ Z.of_nat (length s).
Proof.
  intros Hs Hne. destruct (int2_acc_bits s Hs 0) as (v & Hv & Hb).
  unfold int_base2, bin_value. rewrite Hv.
  destruct s; [contradiction|]. split; [reflexivity | lia].
Qed.

Lemma expand_byte_chunk (s : str) :
  bits s -> length s = 8%nat -> expand_byte (chr (bin_value s)) = s.
Proof.
  intros Hs Hl.
  do 8 (destruct s as [|? s]; [discriminate|]).
  destruct s; [|discriminate].
  repeat match goal with
         | H : bits (_ :: _) |- _ => unfold bits in H
         | H : Forall _ (_ :: _) |- _ => inversion H; subst; clear H
         end.
  repeat match goal with
         | H : is_bit _ |- _ => destruct H; subst
         end; reflexivity.
Qed.

Lemma bits_firstn_skipn (n : nat) (s : str) :
  bits s -> bits (firstn n s) /\ bits (skipn n s).
Proof.
  intros H. unfold bits in *. rewrite <- (firstn_skipn n s) in H.
  now apply Forall_app in H.
Qed.

Lemma bits_firstn (n : nat) (s : str) : bits s -> bits (firstn n s).
Proof. intros H. now apply bits_firstn_skipn. Qed.

Lemma bits_skipn (n : nat) (s : str) : bits s -> bits (skipn n s).
Proof. intros H. now apply bits_firstn_skipn. Qed.

Lemma chunk_values_bytes (n : nat) :
  forall s, bits s -> length s = (8 * n)%nat ->
            Forall (fun v => 0 <= v < 256) (chunk_values n s)
            /\ length (chunk_values n s) = n
            /\ expand (map chr (chunk_values n s)) = s.
Proof.
  induction n as [|n IH]; intros s Hs Hl.
  - destruct s; [|discriminate]. repeat split. constructor.
  - cbn [chunk_values].
    assert (H8 : length (firstn 8 s) = 8%nat) by (rewrite length_firstn; lia).
    destruct (IH (skipn 8 s)) as (IH1 & IH2 & IH3).
    { now apply bits_skipn. }
    { rewrite length_skipn. lia. }
    repeat split.
    + constructor; [|exact IH1].
      destruct (int_base2_bits (firstn 8 s)) as [_ Hb].
      { now apply bits_firstn. }
      { intros E. rewrite E in H8. discriminate. }
      rewrite H8 in Hb. exact Hb.
    + cbn [length]. now rewrite IH2.
    + unfold expand in *. cbn [map flat_map]. rewrite IH3.
      rewrite expand_byte_chunk; [apply firstn_skipn | now apply bits_firstn | exact H8].
Qed.

Lemma add_writes_nil (p : printer) : add_writes p [] = p.
Proof. destruct p. unfold add_writes. cbn. now rewrite app_nil_r. Qed.

Lemma add_writes_app (p : printer) (a b : list str) :
  add_writes (add_writes p a) b = add_writes p (a ++ b).
Proof. unfold add_writes. cbn. now rewrite app_assoc. Qed.

(** *** The grouping *)

Lemma group4_spec (vs : list Z) :
  forall pend, (length pend < 4)%nat ->
    concat (fst (group4 pend vs)) ++ map chr (snd (group4 pend vs))
    = map chr (pend ++ vs)
    /\ Forall (fun w => length w = 4%nat) (fst (group4 pend vs))
    /\ (length (snd (group4 pend vs)) < 4)%nat
    /\ length (snd (group4 pend vs)) = ((length pend + length vs) mod 4)%nat.
Proof.
  induction vs as [|v vs IH]; intros pend Hp.
  - cbn [group4 fst snd concat app length].
    rewrite app_nil_r, Nat.add_0_r, Nat.mod_small by lia.
    repeat split; auto.
  - cbn [group4].
    destruct (Nat.eqb_spec (length (pend ++ [v])) 4) as [E|E].
    + destruct (IH [] ltac:(cbn; lia)) as (I1 & I2 & I3 & I4).
      cbn [fst snd concat]. rewrite <- app_assoc, I1.
      repeat split.
      * cbn [app]. rewrite <- map_app, <- app_assoc. reflexivity.
      * constructor; [now rewrite length_map | exact I2].
      * exact I3.
      * rewrite I4. rewrite length_app in E. cbn [length] in *.
        replace (length pend + S (length vs))%nat with (length vs + 1 * 4)%nat by lia.
        rewrite Nat.Div0.mod_add. reflexivity.
    + rewrite length_app in E. cbn [length] in E.
      destruct (IH (pend ++ [v])) as (I1 & I2 & I3 & I4).
      { rewrite length_app. cbn. lia. }
      rewrite <- app_assoc in I1. cbn [app] in I1.
      repeat split; auto.
      rewrite I4, length_app. cbn [length]. f_equal. lia.
Qed.

Lemma group4_pending (P : Z -> Prop) (vs : list Z) :
  forall pend, Forall P pend -> Forall P vs -> Forall P (snd (group4 pend vs)).
Proof.
  induction vs as [|v vs IH]; intros pend Hp Hv; cbn [group4]; [exact Hp|].
  inversion Hv; subst.
  destruct (length (pend ++ [v]) =? 4)%nat; cbn [snd].
  - apply IH; [constructor | assumption].
  - apply IH; [|assumption]. apply Forall_app. split; [exact Hp | now constructor].
Qed.

(** *** The loop on a string of bits whose length is a multiple of 8 *)

Lemma print_image_loop_bits (n : nat) :
  forall fuel line i pend p,
    bits line -> 0 <= i ->
    Z.of_nat (length line) = i + 8 * Z.of_nat n ->
    (n < fuel)%nat ->
    (length pend < 4)%nat ->
    Forall (fun v => 0 <= v < 256) pend ->
    print_image_loop fuel line i (Z.of_nat (length pend)) (hex_of pend) p =
    (add_writes p (fst (group4 pend (chunk_values n (skipn (Z.to_nat i) line)))),
     Ok (Z.of_nat (length line),
         Z.of_nat (length (snd (group4 pend (chunk_values n (skipn (Z.to_nat i) line))))),
         hex_of (snd (group4 pend (chunk_values n (skipn (Z.to_nat i) line)))))).
Proof.
  induction n as [|n IH]; intros fuel line i pend p Hbits Hi Hlen Hfuel Hpend Hbytes;
    (destruct fuel as [|fuel]; [lia|]); cbn [print_image_loop].
  - destruct (Z.ltb_spec i (Z.of_nat (length line))); [lia|].
    cbn. rewrite add_writes_nil. unfold ret. repeat f_equal. lia.
  - destruct (Z.ltb_spec i (Z.of_nat (length line))); [|lia].
    set (rest := skipn (Z.to_nat i) line).
    assert (Hrest : length rest = (8 * S n)%nat).
    { unfold rest. rewrite length_skipn. lia. }
    assert (Hslice : slice line i (i + 8) = firstn 8 rest).
    { unfold slice, rest. replace (Z.to_nat (i + 8 - i)) with 8%nat by lia. reflexivity. }
    assert (H8 : length (firstn 8 rest) = 8%nat) by (rewrite length_firstn; lia).
    destruct (int_base2_bits (firstn 8 rest)) as [Hint Hv].
    { apply bits_firstn. unfold rest. now apply bits_skipn. }
    { intros E. rewrite E in H8. discriminate. }
    rewrite H8 in Hv. change (2 ^ Z.of_nat 8) with 256 in Hv.
    set (v := bin_value (firstn 8 rest)) in *.
    assert (Hnext : skipn (Z.to_nat (i + 8)) line = skipn 8 rest).
    { unfold rest. rewrite skipn_skipn. f_equal. lia. }
    assert (Hbytes' : Forall (fun v => 0 <= v < 256) (pend ++ [v])).
    { apply Forall_app. split; [exact Hbytes | repeat constructor; lia]. }
    assert (Hhex : hex_of pend ++ fmt_02X v = hex_of (pend ++ [v])).
    { unfold hex_of. rewrite flat_map_app. cbn. now rewrite app_nil_r. }
    assert (Hcont : Z.of_nat (length pend) + 1 = Z.of_nat (length (pend ++ [v]))).
    { rewrite length_app. cbn. lia. }
    unfold bind at 1. rewrite Hslice, Hint. cbn [lift ret].
    rewrite Hhex, Hcont. cbn [chunk_values group4]. fold v.
    destruct (Nat.eqb_spec (length (pend ++ [v])) 4) as [E|E].
    + rewrite E. change (Z.of_nat 4 mod 4 =? 0) with true. cbv iota.
      unfold bind, decode_hex. rewrite a2b_hex_hex_of by exact Hbytes'.
      cbn [lift ret _write].
      change 0 with (Z.of_nat (length (@nil Z))) at 1.
      change (@nil ascii) with (hex_of []).
      rewrite (IH fuel line (i + 8) [] _ Hbits); try lia; [|cbn; lia|constructor].
      rewrite Hnext. unfold add_writes. cbn [fst snd written stdout].
      rewrite <- app_assoc. reflexivity.
    + assert (Hlt : (length (pend ++ [v]) < 4)%nat).
      { rewrite length_app in *. cbn [length] in *. lia. }
      destruct (Z.eqb_spec (Z.of_nat (length (pend ++ [v])) mod 4) 0) as [E0|_].
      { rewrite Z.mod_small in E0 by lia. rewrite length_app in E0. cbn in E0. lia. }
      rewrite (IH fuel line (i + 8) (pend ++ [v]) p Hbits); try lia; try assumption.
      rewrite Hnext. reflexivity.
Qed.

(** *** The loop on any string: it returns, and it only adds writes *)

Lemma print_image_loop_fuel (fuel : nat) :
  forall line i cont buffer p,
    Z.of_nat (length line) - i <= 8 * Z.of_nat fuel ->
    snd (print_image_loop (S fuel) line i cont buffer p) <> OutOfFuel.
Proof.
  induction fuel as [|fuel IH]; intros line i cont buffer p Hf;
    cbn [print_image_loop];
    (destruct (Z.ltb_spec i (Z.of_nat (length line))); [|cbn; discriminate]).
  - lia.
  - unfold bind at 1.
    destruct (int_base2 (slice line i (i + 8))) as [e|v]; cbn [lift raise ret];
      [cbn; discriminate|].
    destruct ((cont + 1) mod 4 =? 0).
    + unfold bind.
      destruct (decode_hex (buffer ++ fmt_02X v)) as [e|d]; cbn [lift raise ret _write];
        [cbn; discriminate|].
      apply IH. lia.
    + apply IH. lia.
Qed.

Lemma print_image_loop_writes (fuel : nat) :
  forall line i cont buffer p,
    exists ws,
      fst (print_image_loop fuel line i cont buffer p) = add_writes p ws.
Proof.
  induction fuel as [|fuel IH]; intros line i cont buffer p; cbn [print_image_loop].
  - exists []. now rewrite add_writes_nil.
  - destruct (i <? Z.of_nat (length line)).
    2:{ exists []. now rewrite add_writes_nil. }
    unfold bind at 1.
    destruct (int_base2 (slice line i (i + 8))) as [e|v]; cbn [lift raise ret].
    { exists []. now rewrite add_writes_nil. }
    destruct ((cont + 1) mod 4 =? 0).
    + unfold bind.
      destruct (decode_hex (buffer ++ fmt_02X v)) as [e|d]; cbn [lift raise ret _write].
      { exists []. now rewrite add_writes_nil. }
      fold (add_writes p [d]).
      destruct (IH line (i + 8) 0 [] (add_writes p [d])) as [ws Hws].
      exists ([d] ++ ws). now rewrite Hws, add_writes_app.
    + apply IH.
Qed.

(** ** Bits and lengths of the scan *)

Lemma toggle_bit (sw : Z) : sw = 0 \/ sw = 1 -> (sw - 1) * (-1) = 0 \/ (sw - 1) * (-1) = 1.
Proof. lia. Qed.

Lemma flips_bit (n : nat) : forall sw, sw = 0 \/ sw = 1 -> flips n sw = 0 \/ flips n sw = 1.
Proof.
  induction n as [|n IH]; intros sw H; [exact H|].
  cbn. apply IH, toggle_bit, H.
Qed.

Lemma fmt_d_bit (sw : Z) : sw = 0 \/ sw = 1 -> exists c, is_bit c /\ fmt_d sw = [c].
Proof.
  intros [-> | ->]; [exists "0"%char | exists "1"%char]; split;
    try reflexivity; [left | right]; reflexivity.
Qed.

Lemma bits_one (d : ascii) : is_bit d -> bits [d].
Proof. intros H. constructor; [exact H | constructor]. Qed.

Lemma band_bits_bits (c sw : Z) : sw = 0 \/ sw = 1 -> bits (band_bits c sw).
Proof.
  intros H. unfold band_bits.
  destruct (c <=? 255); [apply bits_one; now right|].
  destruct (c <=? 510).
  { destruct (fmt_d_bit sw H) as (d & Hd & ->). now apply bits_one. }
  destruct (c <=? 765); [apply bits_one; now left | constructor].
Qed.

Lemma band_bits_one (c sw : Z) :
  c <= 765 -> sw = 0 \/ sw = 1 -> exists d, is_bit d /\ band_bits c sw = [d].
Proof.
  intros Hc H. unfold band_bits.
  destruct (Z.leb_spec c 255); [exists "1"%char; split; [now right | reflexivity]|].
  destruct (Z.leb_spec c 510); [now apply fmt_d_bit|].
  destruct (Z.leb_spec c 765); [exists "0"%char; split; [now left | reflexivity]|].
  lia.
Qed.

Lemma in_range_inv (n v : Z) : In v (range n) -> 0 <= v < n.
Proof.
  unfold range. intros H. apply in_map_iff in H. destruct H as (k & <- & Hk).
  apply in_seq in Hk. lia.
Qed.

Lemma scan_bits_bits (im : image) (y : Z) (xs : list Z) :
  forall sw, sw = 0 \/ sw = 1 -> bits (scan_bits im y xs sw).
Proof.
  induction xs as [|x xs IH]; intros sw H; cbn [scan_bits]; [constructor|].
  apply Forall_app. split.
  - apply band_bits_bits, toggle_bit, H.
  - apply IH, toggle_bit, H.
Qed.

Lemma scan_bits_length (im : image) (y : Z) (xs : list Z) :
  (forall x, In x xs -> luminance im x y <= 765) ->
  forall sw, sw = 0 \/ sw = 1 -> length (scan_bits im y xs sw) = length xs.
Proof.
  induction xs as [|x xs IH]; intros Hok sw H; cbn [scan_bits]; [reflexivity|].
  destruct (band_bits_one (luminance im x y) ((sw - 1) * (-1))) as (d & _ & ->).
  { apply Hok. now left. }
  { apply toggle_bit, H. }
  cbn [app length]. f_equal. apply IH.
  - intros x' Hx'. apply Hok. now right.
  - apply toggle_bit, H.
Qed.

(** A row whose pixels all fall in one constant band. *)
Lemma scan_bits_const (im : image) (y : Z) (xs : list Z) (d : ascii) :
  (forall x sw, In x xs -> band_bits (luminance im x y) sw = [d]) ->
  forall sw, scan_bits im y xs sw = repeat d (length xs).
Proof.
  induction xs as [|x xs IH]; intros Hc sw; cbn [scan_bits]; [reflexivity|].
  rewrite Hc by now left. cbn [app length repeat]. f_equal.
  apply IH. intros x' sw' Hx'. apply Hc. now right.
Qed.

(** A row whose pixels all fall in the middle band. *)
Lemma scan_bits_mid (im : image) (y : Z) (xs : list Z) :
  (forall x, In x xs -> 255 < luminance im x y <= 510) ->
  forall sw, scan_bits im y xs sw = toggled (length xs) sw.
Proof.
  induction xs as [|x xs IH]; intros Hm sw; cbn [scan_bits toggled length]; [reflexivity|].
  f_equal.
  - unfold band_bits. specialize (Hm x (or_introl eq_refl)).
    destruct (Z.leb_spec (luminance im x y) 255); [lia|].
    destruct (Z.leb_spec (luminance im x y) 510); [reflexivity | lia].
  - apply IH. intros x' Hx'. apply Hm. now right.
Qed.

Lemma toggled_add (a b : nat) :
  forall sw, toggled (a + b) sw = toggled a sw ++ toggled b (flips a sw).
Proof.
  induction a as [|a IH]; intros sw; [reflexivity|].
  cbn [Nat.add toggled flips]. rewrite IH, app_assoc. reflexivity.
Qed.

Lemma toggled_seq (n : nat) :
  forall start,
    toggled n (if Nat.even start then 0 else 1)
    = map (fun k => if Nat.even k then "1"%char else "0"%char) (seq start n).
Proof.
  induction n as [|n IH]; intros start; [reflexivity|].
  cbn [toggled seq map]. specialize (IH (S start)).
  rewrite Nat.even_succ, <- Nat.negb_even in IH.
  destruct (Nat.even start); cbn [negb] in IH; rewrite <- IH; reflexivity.
Qed.

Lemma toggled_alternating (n : nat) : toggled n 0 = alternating n.
Proof. apply (toggled_seq n 0). Qed.

(** *** Rows *)

Lemma firstn_exact {A} (a b : list A) : firstn (length a) (a ++ b) = a.
Proof. induction a as [|x a IH]; cbn; [now destruct b | now rewrite IH]. Qed.

Lemma skipn_exact {A} (a b : list A) : skipn (length a) (a ++ b) = b.
Proof. induction a as [|x a IH]; cbn; [reflexivity | exact IH]. Qed.

Lemma non_padding_row (k : nat) (left mid right rest : str) :
  non_padding (S k) (length left) (length mid) (length right)
    ((left ++ mid ++ right) ++ rest)
  = mid ++ non_padding k (length left) (length mid) (length right) rest.
Proof.
  cbn [non_padding]. f_equal.
  - rewrite <- !app_assoc, skipn_exact. apply firstn_exact.
  - f_equal. rewrite <- !length_app, <- (app_assoc left mid right).
    apply skipn_exact.
Qed.

Lemma padding_row (k : nat) (left mid right rest : str) :
  padding (S k) (length left) (length mid) (length right)
    ((left ++ mid ++ right) ++ rest)
  = left ++ right ++ padding k (length left) (length mid) (length right) rest.
Proof.
  cbn [padding]. f_equal; [|f_equal].
  - rewrite <- !app_assoc. apply firstn_exact.
  - rewrite <- length_app, <- !app_assoc, (app_assoc left mid), skipn_exact.
    apply firstn_exact.
  - f_equal. rewrite <- !length_app, <- (app_assoc left mid right).
    apply skipn_exact.
Qed.

Section Rows.

Variable im : image.
Variables left right : str.

Let w : nat := Z.to_nat (width im).

Lemma scan_rows_bits (ys : list Z) :
  bits left -> bits right ->
  forall sw, sw = 0 \/ sw = 1 -> bits (scan_rows im left right ys sw).
Proof.
  intros Hl Hr. induction ys as [|y ys IH]; intros sw H; cbn [scan_rows];
    [constructor|].
  repeat (apply Forall_app; split); auto.
  - now apply scan_bits_bits.
  - apply IH. now apply flips_bit.
Qed.

Hypothesis sums_ok :
  forall x y, 0 <= x < width im -> 0 <= y < height im -> luminance im x y <= 765.

Lemma row_length (y sw : Z) :
  0 <= y < height im -> sw = 0 \/ sw = 1 ->
  length (scan_bits im y (range (width im)) sw) = w.
Proof.
  intros Hy H. rewrite scan_bits_length, length_range; auto.
  intros x Hx. apply sums_ok; [now apply in_range_inv | exact Hy].
Qed.

Lemma scan_rows_length (ys : list Z) :
  (forall y, In y ys -> 0 <= y < height im) ->
  forall sw, sw = 0 \/ sw = 1 ->
    length (scan_rows im left right ys sw)
    = (length ys * (length left + w + length right))%nat.
Proof.
  induction ys as [|y ys IH]; intros Hys sw H; cbn [scan_rows]; [reflexivity|].
  rewrite !length_app, row_length, IH; auto.
  - cbn [length]. lia.
  - intros y' Hy'. apply Hys. now right.
  - now apply flips_bit.
  - apply Hys. now left.
Qed.

Lemma non_padding_scan_rows (ys : list Z) :
  (forall y, In y ys -> 0 <= y < height im) ->
  forall sw, sw = 0 \/ sw = 1 ->
    non_padding (length ys) (length left) w (length right)
      (scan_rows im left right ys sw)
    = payload im ys sw.
Proof.
  induction ys as [|y ys IH]; intros Hys sw H; [reflexivity|].
  cbn [scan_rows payload length].
  rewrite <- (row_length y sw) at 1 by (auto; apply Hys; now left).
  rewrite non_padding_row, row_length by (auto; apply Hys; now left).
  f_equal. apply IH.
  - intros y' Hy'. apply Hys. now right.
  - now apply flips_bit.
Qed.

Lemma padding_scan_rows (ys : list Z) :
  (forall y, In y ys -> 0 <= y < height im) ->
  forall sw, sw = 0 \/ sw = 1 ->
    padding (length ys) (length left) w (length right)
      (scan_rows im left right ys sw)
    = concat (repeat (left ++ right) (length ys)).
Proof.
  induction ys as [|y ys IH]; intros Hys sw H; [reflexivity|].
  cbn [scan_rows length repeat concat].
  rewrite <- (row_length y sw) at 1 by (auto; apply Hys; now left).
  rewrite padding_row, row_length by (auto; apply Hys; now left).
  rewrite <- app_assoc. do 2 f_equal. apply IH.
  - intros y' Hy'. apply Hys. now right.
  - now apply flips_bit.
Qed.

End Rows.

(** ** The framer as a whole *)

Lemma header_bytes (a b : Z) :
  0 <= a < 256 -> 0 <= b < 256 ->
  decode_hex (fmt_02X a ++ fmt_02X 0 ++ fmt_02X b ++ fmt_02X 0)
  = inr [chr a; chr 0; chr b; chr 0].
Proof.
  intros Ha Hb. unfold decode_hex.
  rewrite <- (app_nil_r (fmt_02X 0)) at 2.
  rewrite !a2b_hex_byte by lia. reflexivity.
Qed.

Lemma print_image_header (line : str) (size : Z * Z) (p : printer) :
  header_ok size ->
  _print_image line size p =
  (print_image_loop (S (length line)) line 0 0 [] ;; ret tt)
    (add_writes p [_image_size_1x1; header_of size]).
Proof.
  intros (Hnz & Hq & Hh). unfold _print_image.
  unfold bind at 1. cbn [_write].
  unfold bind at 1. unfold py_div.
  destruct (Z.eqb_spec (snd size) 0) as [E|_]; [contradiction|].
  cbn [lift ret].
  unfold bind at 1. rewrite header_bytes by assumption. cbn [lift ret].
  unfold bind at 1. cbn [_write written stdout].
  unfold add_writes, header_of. rewrite <- app_assoc. reflexivity.
Qed.

Lemma print_image_bits (n : nat) (line : str) (size : Z * Z) (p : printer) :
  bits line -> length line = (8 * n)%nat -> header_ok size ->
  _print_image line size p =
  (add_writes p ([_image_size_1x1; header_of size]
                 ++ fst (group4 [] (chunk_values n line))),
   Ok tt).
Proof.
  intros Hb Hl Hh. rewrite print_image_header by exact Hh.
  unfold bind.
  change (print_image_loop (S (length line)) line 0 0 [])
    with (print_image_loop (S (length line)) line 0
            (Z.of_nat (length (@nil Z))) (hex_of [])).
  rewrite (print_image_loop_bits n); try assumption; try lia;
    [|cbn; lia|constructor].
  cbn [ret]. rewrite add_writes_app. reflexivity.
Qed.

Lemma print_image_any (line : str) (size : Z * Z) (p : printer) :
  header_ok size ->
  exists ws,
    fst (_print_image line size p)
    = add_writes p ([_image_size_1x1; header_of size] ++ ws)
    /\ snd (_print_image line size p) <> OutOfFuel.
Proof.
  intros Hh. rewrite print_image_header by exact Hh.
  set (p1 := add_writes p [_image_size_1x1; header_of size]).
  destruct (print_image_loop_writes (S (length line)) line 0 0 [] p1) as [ws Hws].
  pose proof (print_image_loop_fuel (length line) line 0 0 [] p1 ltac:(lia)) as Hf.
  exists ws. unfold bind.
  destruct (print_image_loop (S (length line)) line 0 0 [] p1) as [p' [a|e|]];
    cbn [fst snd] in *; subst p'; unfold p1; rewrite add_writes_app;
    split; try reflexivity; try discriminate.
  contradiction.
Qed.

Lemma framer_bytes_bits (n : nat) (line : str) :
  bits line -> length line = (8 * n)%nat ->
  framer_bytes line = Some (map chr (chunk_values n line)).
Proof.
  intros Hb Hl. unfold framer_bytes.
  change (print_image_loop (S (length line)) line 0 0 [])
    with (print_image_loop (S (length line)) line 0
            (Z.of_nat (length (@nil Z))) (hex_of [])).
  rewrite (print_image_loop_bits n); try assumption; try lia;
    [|cbn; lia|constructor].
  change (skipn (Z.to_nat 0) line) with line.
  destruct (chunk_values_bytes n line Hb Hl) as (Hbytes & _ & _).
  destruct (group4_spec (chunk_values n line) [] ltac:(cbn; lia)) as (G1 & _ & _ & _).
  assert (Hpe : Forall (fun v => 0 <= v < 256) (snd (group4 [] (chunk_values n line))))
    by (apply group4_pending; [constructor | exact Hbytes]).
  rewrite a2b_hex_hex_of by exact Hpe.
  cbn [add_writes written fresh app]. rewrite G1. reflexivity.
Qed.

(** * The claims *)

(** C5. For every width >= 1 that is not a multiple of 32 the padding
    calculator returns a pair (l, r) of non-negative integers with
    l + width + r a multiple of 32 and r - l in {0, 1}; for every width that
    is a multiple of 32 it returns exactly (0, 0). *)
Theorem C5_check_image_size_padding :
  (forall w : Z,
      1 <= w -> w mod 32 <> 0 ->
      let '(l, r) := _check_image_size w in
      0 <= l /\ 0 <= r /\ (l + w + r) mod 32 = 0 /\ (r - l = 0 \/ r - l = 1))
  /\ (forall w : Z, w mod 32 = 0 -> _check_image_size w = (0, 0)).
Proof.
  split.
  - intros w _ _. pose proof (check_image_size_cases w) as H.
    destruct (_check_image_size w) as [l r]. tauto.
  - intros w H. unfold _check_image_size. now rewrite H.
Qed.

Lemma C5_check_image_size_padding_witness :
  (let '(l, r) := _check_image_size 33 in
   0 <= l /\ 0 <= r /\ (l + 33 + r) mod 32 = 0 /\ (r - l = 0 \/ r - l = 1))
  /\ _check_image_size 64 = (0, 0).
Proof.
  split.
  - apply (proj1 C5_check_image_size_padding 33); [lia | vm_compute; discriminate].
  - apply (proj2 C5_check_image_size_padding 64). reflexivity.
Defined.

(** C4. For every image with height > 255 the encoder raises the
    invalid-dimension error at its entry point and the sink receives no
    write: the log of writes is what it was before the call. *)
Theorem C4_height_over_255_rejected (im : image) (p : printer) :
  height im > 255 ->
  snd (_convert_and_print_image im p)
  = Raise (ValueError "Image Height larger than 255")
  /\ written (fst (_convert_and_print_image im p)) = written p.
Proof.
  intros H. unfold _convert_and_print_image, height in *.
  destruct (Z.gtb_spec (snd (size im)) 255) as [_|]; [|lia].
  unfold bind. destruct (fst (size im) >? 512); cbn; split; reflexivity.
Qed.

Lemma C4_height_over_255_rejected_witness :
  snd (_convert_and_print_image (uniform 32 256 (0, 0, 0)) fresh)
  = Raise (ValueError "Image Height larger than 255")
  /\ written (fst (_convert_and_print_image (uniform 32 256 (0, 0, 0)) fresh)) = [].
Proof.
  apply (C4_height_over_255_rejected (uniform 32 256 (0, 0, 0)) fresh).
  reflexivity.
Defined.

(** ** Sizes and header of an accepted image *)

Lemma convert_sizes (im : image) :
  0 <= width im -> 0 <= height im ->
  img_size (convert im) = (height im * totalPaddedWidth im, height im).
Proof.
  intros Hw Hh. rewrite convert_eq. cbn [img_size]. unfold totalPaddedWidth.
  rewrite !Z2Nat.id by assumption. reflexivity.
Qed.

Lemma convert_header_ok (im : image) :
  0 <= width im <= 2016 -> 1 <= height im <= 255 ->
  header_ok (img_size (convert im))
  /\ header_of (img_size (convert im))
     = [chr (totalPaddedWidth im / 8); chr 0; chr (height im); chr 0].
Proof.
  intros Hw Hh. rewrite convert_sizes by lia.
  unfold header_ok, header_of. cbn [fst snd].
  rewrite (Z.mul_comm (height im)), Z.div_mul by lia.
  pose proof (totalPaddedWidth_mod32 im) as Hm.
  pose proof (totalPaddedWidth_bound im) as Hb.
  pose proof (Z.div_mod (totalPaddedWidth im) 32 ltac:(lia)) as Hd.
  split; [|reflexivity].
  repeat split; try lia.
  - apply Z.div_pos; lia.
  - apply Z.div_lt_upper_bound; lia.
Qed.

Lemma convert_and_print_accepted (im : image) (p : printer) :
  height im <= 255 ->
  _convert_and_print_image im p
  = _print_image (pix_line (convert im)) (img_size (convert im)) (warned im p).
Proof.
  intros H. unfold _convert_and_print_image, warned, height, width in *.
  destruct (Z.gtb_spec (snd (size im)) 255) as [|_]; [lia|].
  unfold bind. destruct (fst (size im) >? 512); cbn [print ret]; reflexivity.
Qed.

Lemma written_warned (im : image) (p : printer) : written (warned im p) = written p.
Proof. unfold warned. now destruct (width im >? 512). Qed.

Lemma ord_chr (v : Z) : 0 <= v < 256 -> ord (chr v) = v.
Proof.
  intros H. unfold ord, chr. rewrite N_ascii_embedding by lia. lia.
Qed.

(** C1 (as amended). For every image with 1 <= height <= 255 whose row
    byte count fits one byte (0 <= width <= 2016, so totalPaddedWidth / 8 <=
    255), the accumulated size pair is (height x totalPaddedWidth, height),
    (size[0] / size[1]) / 8 equals totalPaddedWidth / 8, an exact quotient
    independent of the height, and the first byte of the 4-byte header
    written after the preamble is that value. *)
Theorem C1_header_width_byte (im : image) (p : printer) :
  0 <= width im <= 2016 -> 1 <= height im <= 255 ->
  img_size (convert im) = (height im * totalPaddedWidth im, height im)
  /\ fst (img_size (convert im)) / snd (img_size (convert im)) / 8
     = totalPaddedWidth im / 8
  /\ totalPaddedWidth im mod 8 = 0
  /\ header_first_byte im p (totalPaddedWidth im / 8)
  /\ snd (_convert_and_print_image im p) <> OutOfFuel.
Proof.
  intros Hw Hh.
  destruct (convert_header_ok im Hw Hh) as [Hok Hhdr].
  pose proof (totalPaddedWidth_mod32 im) as Hm.
  pose proof (totalPaddedWidth_bound im) as Hb.
  pose proof (Z.div_mod (totalPaddedWidth im) 32 ltac:(lia)) as Hd.
  destruct (print_image_any (pix_line (convert im)) (img_size (convert im))
              (warned im p) Hok) as (ws & Hws & Hfuel).
  pose proof (convert_sizes im ltac:(lia) ltac:(lia)) as Hsz.
  split; [exact Hsz|].
  split.
  { rewrite Hsz. cbn [fst snd].
    rewrite (Z.mul_comm (height im)), Z.div_mul by lia. reflexivity. }
  split.
  { rewrite Hm in Hd. rewrite Z.add_0_r in Hd. rewrite Hd.
    replace (32 * (totalPaddedWidth im / 32))
      with (4 * (totalPaddedWidth im / 32) * 8) by lia.
    apply Z.mod_mul. lia. }
  split.
  { unfold header_first_byte. rewrite convert_and_print_accepted by lia.
    rewrite Hws, Hhdr. cbn [add_writes written]. rewrite written_warned.
    eexists _, _, _, _, ws. split; [reflexivity|].
    apply ord_chr. split; [apply Z.div_pos; lia | apply Z.div_lt_upper_bound; lia]. }
  rewrite convert_and_print_accepted by lia. exact Hfuel.
Qed.

Lemma C1_header_width_byte_witness :
  img_size (convert (uniform 33 2 (0, 0, 0))) = (2 * 64, 2)
  /\ header_first_byte (uniform 33 2 (0, 0, 0)) fresh 8.
Proof.
  pose proof (C1_header_width_byte (uniform 33 2 (0, 0, 0)) fresh
                ltac:(cbn; lia) ltac:(cbn; lia)) as (H1 & _ & _ & H4 & _).
  split; [exact H1 | exact H4].
Defined.

(** C1, as stated, fails: a 2048 x 1 image passes validation (the width
    check only warns), its header value is 256, whose three hexadecimal
    digits make the header text odd-length, so decoding raises and no
    header is written at all. *)
Lemma C1_counterexample :
  accepted (uniform 2048 1 (0, 0, 0))
  /\ ~ header_first_byte (uniform 2048 1 (0, 0, 0)) fresh
       (totalPaddedWidth (uniform 2048 1 (0, 0, 0)) / 8).
Proof.
  split; [unfold accepted; cbn; lia|].
  assert (E : written (fst (_convert_and_print_image (uniform 2048 1 (0, 0, 0)) fresh))
              = [_image_size_1x1]) by (vm_compute; reflexivity).
  intros (b0 & b1 & b2 & b3 & rest & H & _).
  rewrite E in H. cbn in H. discriminate H.
Qed.

Lemma scan_rows_empty (im : image) (ys : list Z) :
  width im = 0 -> forall sw, scan_rows im [] [] ys sw = [].
Proof.
  intros Hw. induction ys as [|y ys IH]; intros sw; [reflexivity|].
  cbn [scan_rows]. rewrite Hw at 1. cbn [range Z.to_nat seq map scan_bits app].
  apply IH.
Qed.

(** C3 (as amended). An image with width = 0 is not rejected: the only
    entry check that raises is the one on the height.  For 1 <= height <=
    255 the padding calculator returns (0, 0), no bit is produced, and the
    sink receives the preamble and the header [0, 0, height, 0]. *)
Theorem C3_zero_width_not_rejected (im : image) (p : printer) :
  width im = 0 -> 1 <= height im <= 255 ->
  _check_image_size (width im) = (0, 0)
  /\ pix_line (convert im) = []
  /\ _convert_and_print_image im p
     = (add_writes p [_image_size_1x1; [chr 0; chr 0; chr (height im); chr 0]],
        Ok tt).
Proof.
  intros Hw Hh.
  assert (Hline : pix_line (convert im) = []).
  { rewrite convert_eq. cbn [pix_line]. unfold leftBits, rightBits.
    rewrite Hw. change (_check_image_size 0) with (0, 0).
    cbn [fst snd Z.to_nat repeat]. now apply scan_rows_empty. }
  destruct (convert_header_ok im ltac:(lia) Hh) as [Hok Hhdr].
  repeat split.
  - now rewrite Hw.
  - exact Hline.
  - rewrite convert_and_print_accepted by lia.
    rewrite (print_image_bits 0); [|rewrite Hline; constructor|now rewrite Hline|exact Hok].
    rewrite Hhdr. unfold totalPaddedWidth, leftBits, rightBits. rewrite Hw.
    cbn [chunk_values group4 fst app].
    unfold warned. rewrite Hw. reflexivity.
Qed.

Lemma C3_zero_width_not_rejected_witness :
  _convert_and_print_image (uniform 0 1 (0, 0, 0)) fresh
  = (add_writes fresh [_image_size_1x1; [chr 0; chr 0; chr 1; chr 0]], Ok tt).
Proof.
  apply (C3_zero_width_not_rejected (uniform 0 1 (0, 0, 0)) fresh);
    [reflexivity | cbn; lia].
Defined.

(** C3, as stated, fails: a 0 x 1 image is encoded; the call returns and
    the sink has received two writes. *)
Lemma C3_counterexample :
  width (uniform 0 1 (0, 0, 0)) = 0
  /\ ~ rejected_unwritten (uniform 0 1 (0, 0, 0)) fresh.
Proof.
  split; [reflexivity|].
  intros [_ H]. vm_compute in H. discriminate H.
Qed.

(** ** What the framer writes *)

Lemma multiple_of_8 (line : str) :
  Z.of_nat (length line) mod 8 = 0 ->
  exists n, length line = (8 * n)%nat /\ Z.of_nat n = Z.of_nat (length line) / 8.
Proof.
  intros H. exists (Z.to_nat (Z.of_nat (length line) / 8)).
  pose proof (Z.div_mod (Z.of_nat (length line)) 8 ltac:(lia)) as Hd.
  assert (0 <= Z.of_nat (length line) / 8) by (apply Z.div_pos; lia).
  split; lia.
Qed.

Lemma group4_full (vs : list Z) :
  Forall (fun w => length w = 4%nat) (fst (group4 [] vs))
  /\ concat (fst (group4 [] vs)) = firstn (4 * (length vs / 4)) (map chr vs)
  /\ length (snd (group4 [] vs)) = (length vs mod 4)%nat.
Proof.
  destruct (group4_spec vs [] ltac:(cbn; lia)) as (G1 & G2 & _ & G4).
  cbn [app length Nat.add] in G1, G4.
  split; [exact G2|]. split; [|exact G4].
  assert (Hlen : length (concat (fst (group4 [] vs))) = (4 * (length vs / 4))%nat).
  { apply (f_equal (@length ascii)) in G1.
    rewrite length_app, !length_map, G4 in G1.
    pose proof (Nat.div_mod_eq (length vs) 4). lia. }
  rewrite <- G1, <- Hlen. symmetry. apply firstn_exact.
Qed.

(** C2 (as amended). For a bit string whose length is a multiple of 8 the
    framer writes complete groups of 4 packed bytes only: after preamble and
    header, the data writes are 4 bytes each and hold the first
    4 * floor(N / 32) packed bytes, in order.  When the length is not a
    multiple of 32 the final group of fewer than 4 bytes stays in the buffer
    and is not written; when it is, every packed byte is written. *)
Theorem C2_only_full_groups_written (line : str) (size : Z * Z) (p : printer) :
  bits line -> Z.of_nat (length line) mod 8 = 0 -> header_ok size ->
  exists bytes groups,
    framer_bytes line = Some bytes
    /\ Z.of_nat (length bytes) = Z.of_nat (length line) / 8
    /\ _print_image line size p
       = (add_writes p ([_image_size_1x1; header_of size] ++ groups), Ok tt)
    /\ Forall (fun w => length w = 4%nat) groups
    /\ concat groups = firstn (4 * (length bytes / 4)) bytes
    /\ (Z.of_nat (length line) mod 32 <> 0 -> concat groups <> bytes)
    /\ (Z.of_nat (length line) mod 32 = 0 -> concat groups = bytes).
Proof.
  intros Hb H8 Hh.
  destruct (multiple_of_8 line H8) as (n & Hn & Hn8).
  destruct (chunk_values_bytes n line Hb Hn) as (_ & Hlen & _).
  destruct (group4_full (chunk_values n line)) as (G1 & G2 & G3).
  exists (map chr (chunk_values n line)), (fst (group4 [] (chunk_values n line))).
  rewrite length_map, Hlen in *.
  assert (Hcat : length (concat (fst (group4 [] (chunk_values n line))))
                 = (4 * (n / 4))%nat).
  { rewrite G2, length_firstn, length_map, Hlen.
    pose proof (Nat.div_mod_eq n 4). lia. }
  pose proof (Nat.div_mod_eq n 4) as Hdm.
  pose proof (Nat.mod_upper_bound n 4 ltac:(lia)) as Hup.
  repeat split.
  - now apply framer_bytes_bits.
  - exact Hn8.
  - now apply print_image_bits.
  - exact G1.
  - exact G2.
  - intros H32 E. apply (f_equal (@length ascii)) in E.
    rewrite Hcat, length_map, Hlen in E.
    apply H32. rewrite Hn.
    replace (Z.of_nat (8 * n)) with (Z.of_nat (n / 4) * 32) by lia.
    apply Z.mod_mul. lia.
  - intros H32. rewrite G2. apply firstn_all2. rewrite length_map, Hlen.
    assert (Z.of_nat n mod 4 = 0).
    { rewrite Hn in H32.
      pose proof (Z.div_mod (Z.of_nat (8 * n)) 32 ltac:(lia)) as Hd.
      rewrite H32 in Hd.
      replace (Z.of_nat n) with ((Z.of_nat (8 * n) / 32) * 4) by lia.
      apply Z.mod_mul. lia. }
    assert ((n mod 4)%nat = 0%nat).
    { apply Nat2Z.inj. rewrite Nat2Z.inj_mod. exact H. }
    lia.
Qed.

Lemma C2_only_full_groups_written_witness :
  exists bytes groups,
    framer_bytes (lit "1111111100000000") = Some bytes
    /\ Z.of_nat (length bytes) = 16 / 8
    /\ _print_image (lit "1111111100000000") (32, 1) fresh
       = (add_writes fresh ([_image_size_1x1; header_of (32, 1)] ++ groups), Ok tt)
    /\ concat groups <> bytes.
Proof.
  destruct (C2_only_full_groups_written (lit "1111111100000000") (32, 1) fresh)
    as (bytes & groups & H1 & H2 & H3 & _ & _ & H6 & _).
  - repeat constructor; (now left) || (now right).
  - reflexivity.
  - unfold header_ok. cbn. lia.
  - exists bytes, groups. repeat split; trivial. apply H6. cbn. discriminate.
Defined.

(** C2, as stated, fails: for the 8-bit string 11111111 the framer forms the
    byte 0xFF and ends the loop with it in the buffer; nothing follows the
    header in the sink. *)
Lemma C2_counterexample :
  bits (lit "11111111")
  /\ Z.of_nat (length (lit "11111111")) mod 8 = 0
  /\ Z.of_nat (length (lit "11111111")) mod 32 <> 0
  /\ ~ all_bytes_written (lit "11111111") (8, 1).
Proof.
  split; [repeat constructor; now right|].
  split; [reflexivity|].
  split; [cbn; discriminate|].
  intros (bytes & H1 & H2). vm_compute in H1, H2.
  rewrite <- H2 in H1. discriminate H1.
Qed.

(** C9. For every bit sequence whose length N is a multiple of 8, the
    framer packs it into N / 8 bytes, and re-expanding each byte
    most-significant bit first gives the bit sequence back. *)
Theorem C9_pack_expand_roundtrip (line : str) :
  bits line -> Z.of_nat (length line) mod 8 = 0 ->
  exists bytes,
    framer_bytes line = Some bytes
    /\ Z.of_nat (length bytes) = Z.of_nat (length line) / 8
    /\ expand bytes = line.
Proof.
  intros Hb H8.
  destruct (multiple_of_8 line H8) as (n & Hn & Hn8).
  destruct (chunk_values_bytes n line Hb Hn) as (_ & Hlen & Hexp).
  exists (map chr (chunk_values n line)). repeat split.
  - now apply framer_bytes_bits.
  - now rewrite length_map, Hlen.
  - exact Hexp.
Qed.

Lemma C9_pack_expand_roundtrip_witness :
  exists bytes,
    framer_bytes (lit "1010001101111110") = Some bytes
    /\ Z.of_nat (length bytes) = 2
    /\ expand bytes = lit "1010001101111110".
Proof.
  apply (C9_pack_expand_roundtrip (lit "1010001101111110")).
  - repeat constructor; (now left) || (now right).
  - reflexivity.
Defined.

(** ** Whole images *)

Lemma pixel_grid_sums (im : image) :
  pixel_grid im ->
  forall x y, 0 <= x < width im -> 0 <= y < height im -> luminance im x y <= 765.
Proof.
  intros (_ & _ & H) x y Hx Hy. specialize (H x y Hx Hy).
  unfold luminance, channels_ok in *.
  destruct (getpixel im (x, y)) as [[r g] b]. lia.
Qed.

Lemma pix_line_bits (im : image) : bits (pix_line (convert im)).
Proof.
  rewrite convert_eq. cbn [pix_line].
  apply scan_rows_bits; try (now left);
    apply Forall_forall; intros c Hc; apply repeat_spec in Hc; now left.
Qed.

Lemma pix_line_length (im : image) :
  0 <= width im -> 0 <= height im ->
  (forall x y, 0 <= x < width im -> 0 <= y < height im -> luminance im x y <= 765) ->
  Z.of_nat (length (pix_line (convert im))) = height im * totalPaddedWidth im.
Proof.
  intros Hw Hh Hok. rewrite convert_eq. cbn [pix_line].
  rewrite scan_rows_length; try assumption; [|apply in_range_inv | now left].
  rewrite length_range, !repeat_length. unfold totalPaddedWidth.
  pose proof (leftBits_nonneg im). pose proof (rightBits_nonneg im).
  rewrite Nat2Z.inj_mul, !Nat2Z.inj_add, !Z2Nat.id by assumption. reflexivity.
Qed.

Lemma payload_const (im : image) (d : ascii) (ys : list Z) :
  (forall x y sw, In x (range (width im)) -> In y ys ->
                  band_bits (luminance im x y) sw = [d]) ->
  forall sw, payload im ys sw = repeat d (length ys * Z.to_nat (width im)).
Proof.
  induction ys as [|y ys IH]; intros Hc sw; [reflexivity|].
  cbn [payload length Nat.mul]. rewrite repeat_app. f_equal.
  - rewrite (scan_bits_const im y _ d), length_range; [reflexivity|].
    intros x sw' Hx. apply Hc; [exact Hx | now left].
  - apply IH. intros x y' sw' Hx Hy'. apply Hc; [exact Hx | now right].
Qed.

Lemma payload_mid (im : image) (ys : list Z) :
  (forall x y, In x (range (width im)) -> In y ys ->
               255 < luminance im x y <= 510) ->
  forall sw, payload im ys sw = toggled (length ys * Z.to_nat (width im)) sw.
Proof.
  induction ys as [|y ys IH]; intros Hm sw; [reflexivity|].
  cbn [payload length Nat.mul]. rewrite toggled_add. f_equal.
  - rewrite scan_bits_mid, length_range; [reflexivity|].
    intros x Hx. apply Hm; [exact Hx | now left].
  - apply IH. intros x y' Hx Hy'. apply Hm; [exact Hx | now right].
Qed.

(** The non-padding bits of the stream are the pixel bits. *)
Lemma non_padding_convert (im : image) :
  (forall x y, 0 <= x < width im -> 0 <= y < height im -> luminance im x y <= 765) ->
  non_padding (Z.to_nat (height im)) (Z.to_nat (leftBits im))
    (Z.to_nat (width im)) (Z.to_nat (rightBits im)) (pix_line (convert im))
  = payload im (range (height im)) 0.
Proof.
  intros Hok. rewrite convert_eq. cbn [pix_line].
  rewrite <- (length_range (height im)).
  rewrite <- (repeat_length "0"%char (Z.to_nat (leftBits im))) at 1.
  rewrite <- (repeat_length "0"%char (Z.to_nat (rightBits im))) at 1.
  apply non_padding_scan_rows; [exact Hok | apply in_range_inv | now left].
Qed.

Lemma all_pixels_luminance (im : image) (r g b : Z) :
  all_pixels im (r, g, b) ->
  forall x y, 0 <= x < width im -> 0 <= y < height im ->
              luminance im x y = r + g + b.
Proof.
  intros H x y Hx Hy. unfold luminance. now rewrite (H x y Hx Hy).
Qed.

Lemma flips_parity (n : nat) : flips n 0 = Z.of_nat n mod 2.
Proof.
  assert (G : forall k sw, sw = 0 \/ sw = 1 -> flips k sw = (sw + Z.of_nat k) mod 2).
  { induction k as [|k IH]; intros sw H.
    - cbn [flips]. rewrite Z.add_0_r. destruct H as [-> | ->]; reflexivity.
    - cbn [flips]. rewrite IH by (apply toggle_bit, H).
      rewrite Nat2Z.inj_succ.
      destruct H as [-> | ->].
      + change ((0 - 1) * -1) with 1. f_equal. lia.
      + change ((1 - 1) * -1) with 0.
        replace (1 + Z.succ (Z.of_nat k)) with (0 + Z.of_nat k + 1 * 2) by lia.
        rewrite Z.mod_add by lia. reflexivity. }
  apply (G n 0). now left.
Qed.

(** C8. For a 32-pixel-wide, 1-pixel-high all-black image the writes are:
    the 4-byte raster-mode preamble, the header bytes [4, 0, 1, 0], and the
    four bytes 0xFF 0xFF 0xFF 0xFF as one 4-byte write. *)
Theorem C8_black_32x1 (im : image) (p : printer) :
  size im = (32, 1) -> all_pixels im (0, 0, 0) ->
  length _image_size_1x1 = 4%nat
  /\ _convert_and_print_image im p
     = (add_writes p [_image_size_1x1;
                      [chr 4; chr 0; chr 1; chr 0];
                      [chr 255; chr 255; chr 255; chr 255]],
        Ok tt).
Proof.
  intros Hs Hblack. split; [reflexivity|].
  assert (Hw : width im = 32) by (unfold width; now rewrite Hs).
  assert (Hh : height im = 1) by (unfold height; now rewrite Hs).
  assert (Hline : pix_line (convert im) = repeat "1"%char 32).
  { rewrite convert_eq. cbn [pix_line]. unfold leftBits, rightBits.
    rewrite Hh, Hw. change (_check_image_size 32) with (0, 0).
    change (range 1) with [0]. change (Z.to_nat (fst (0, 0))) with 0%nat.
    change (Z.to_nat (snd (0, 0))) with 0%nat.
    cbn [repeat scan_rows app]. rewrite !app_nil_r.
    rewrite (scan_bits_const im _ _ "1"%char); [now rewrite Hw|].
    intros x sw Hx. apply in_range_inv in Hx.
    rewrite (all_pixels_luminance im 0 0 0 Hblack) by lia. reflexivity. }
  destruct (convert_header_ok im ltac:(lia) ltac:(lia)) as [Hok Hhdr].
  rewrite convert_and_print_accepted by lia.
  rewrite (print_image_bits 4); [|apply pix_line_bits|now rewrite Hline|exact Hok].
  rewrite Hhdr, Hline, Hh. unfold totalPaddedWidth, leftBits, rightBits, warned.
  rewrite Hw. reflexivity.
Qed.

Lemma C8_black_32x1_witness :
  _convert_and_print_image (uniform 32 1 (0, 0, 0)) fresh
  = (add_writes fresh [_image_size_1x1;
                       [chr 4; chr 0; chr 1; chr 0];
                       [chr 255; chr 255; chr 255; chr 255]],
     Ok tt).
Proof.
  apply (C8_black_32x1 (uniform 32 1 (0, 0, 0)) fresh); [reflexivity|].
  intros x y _ _. reflexivity.
Defined.

(** C10. For every pixel whose three channel values are each in 0..255 the
    three-band threshold loop appends exactly one bit; hence the bit stream
    of an image has length exactly height x (leftBits + width + rightBits),
    a multiple of 32, and the framer's 4-byte grouping ends with an empty
    buffer, every packed byte written. *)
Theorem C10_one_bit_per_pixel :
  (forall (r g b sw : Z) (line : str),
      channels_ok (r, g, b) -> sw = 0 \/ sw = 1 ->
      exists c, is_bit c
                /\ threshold_loop (range pattern_len) (r + g + b) sw line = line ++ [c])
  /\ (forall im : image,
         pixel_grid im ->
         Z.of_nat (length (pix_line (convert im)))
         = height im * (leftBits im + width im + rightBits im)
         /\ Z.of_nat (length (pix_line (convert im))) mod 32 = 0
         /\ forall p : printer,
             exists groups,
               print_image_loop (S (length (pix_line (convert im))))
                 (pix_line (convert im)) 0 0 [] p
               = (add_writes p groups,
                  Ok (Z.of_nat (length (pix_line (convert im))), 0, []))
               /\ framer_bytes (pix_line (convert im)) = Some (concat groups)
               /\ Z.of_nat (length (concat groups))
                  = Z.of_nat (length (pix_line (convert im))) / 8).
Proof.
  split.
  - intros r g b sw line Hc Hsw. rewrite threshold_loop_band.
    destruct (band_bits_one (r + g + b) sw) as (c & Hc1 & Hc2); trivial.
    { unfold channels_ok in Hc. lia. }
    exists c. now rewrite Hc2.
  - intros im Hgrid.
    pose proof Hgrid as (Hw & Hh & _).
    pose proof (pix_line_length im Hw Hh (pixel_grid_sums im Hgrid)) as Hlen.
    fold (totalPaddedWidth im).
    pose proof (totalPaddedWidth_mod32 im) as Hm.
    pose proof (Z.div_mod (totalPaddedWidth im) 32 ltac:(lia)) as Hd.
    rewrite Hm, Z.add_0_r in Hd.
    set (line := pix_line (convert im)) in *.
    assert (H32 : Z.of_nat (length line) mod 32 = 0).
    { rewrite Hlen, Hd.
      replace (height im * (32 * (totalPaddedWidth im / 32)))
        with (height im * (totalPaddedWidth im / 32) * 32) by lia.
      apply Z.mod_mul. lia. }
    assert (H8 : Z.of_nat (length line) mod 8 = 0).
    { pose proof (Z.div_mod (Z.of_nat (length line)) 32 ltac:(lia)) as Hd32.
      rewrite H32, Z.add_0_r in Hd32. rewrite Hd32.
      replace (32 * (Z.of_nat (length line) / 32))
        with (4 * (Z.of_nat (length line) / 32) * 8) by lia.
      apply Z.mod_mul. lia. }
    split; [exact Hlen|]. split; [exact H32|].
    intros p.
    destruct (multiple_of_8 line H8) as (n & Hn & Hn8).
    pose proof (pix_line_bits im) as Hb. fold line in Hb.
    destruct (chunk_values_bytes n line Hb Hn) as (_ & Hcl & _).
    destruct (group4_spec (chunk_values n line) [] ltac:(cbn; lia))
      as (G1 & _ & _ & G4).
    cbn [app length Nat.add] in G1, G4. rewrite Hcl in G4.
    assert (Hn4 : (n mod 4)%nat = 0%nat).
    { apply Nat2Z.inj. rewrite Nat2Z.inj_mod, Hn8.
      pose proof (Z.div_mod (Z.of_nat (length line)) 32 ltac:(lia)) as Hd32.
      rewrite H32, Z.add_0_r in Hd32. rewrite Hd32 at 1.
      replace (32 * (Z.of_nat (length line) / 32))
        with (4 * (Z.of_nat (length line) / 32) * 8) by lia.
      rewrite Z.div_mul by lia. rewrite Z.mul_comm. apply Z.mod_mul. lia. }
    rewrite Hn4 in G4. apply length_zero_iff_nil in G4.
    rewrite G4 in G1. cbn [map] in G1. rewrite app_nil_r in G1.
    exists (fst (group4 [] (chunk_values n line))).
    repeat split.
    + change (print_image_loop (S (length line)) line 0 0 [])
        with (print_image_loop (S (length line)) line 0
                (Z.of_nat (length (@nil Z))) (hex_of [])).
      rewrite (print_image_loop_bits n); try assumption; try lia;
        [|cbn; lia|constructor].
      change (skipn (Z.to_nat 0) line) with line. rewrite G4. reflexivity.
    + rewrite G1. now apply framer_bytes_bits.
    + rewrite G1, length_map, Hcl. exact Hn8.
Qed.

Lemma C10_one_bit_per_pixel_witness :
  (exists c, is_bit c
             /\ threshold_loop (range pattern_len) (10 + 200 + 90) 1 (lit "01")
                = lit "01" ++ [c])
  /\ Z.of_nat (length (pix_line (convert (uniform 3 2 (10, 200, 90))))) = 2 * (14 + 3 + 15).
Proof.
  split.
  - apply (proj1 C10_one_bit_per_pixel 10 200 90 1 (lit "01")).
    + cbn. lia.
    + now right.
  - apply (proj2 C10_one_bit_per_pixel (uniform 3 2 (10, 200, 90))).
    unfold pixel_grid. cbn. repeat split; lia.
Defined.

(** C7. For every image in which every pixel is (255, 255, 255) every
    non-padding bit of the bit stream is 0; for every image in which every
    pixel is (0, 0, 0) every non-padding bit is 1. *)
Theorem C7_white_black (im : image) :
  (all_pixels im (255, 255, 255) ->
   non_padding (Z.to_nat (height im)) (Z.to_nat (leftBits im))
     (Z.to_nat (width im)) (Z.to_nat (rightBits im)) (pix_line (convert im))
   = repeat "0"%char (Z.to_nat (height im) * Z.to_nat (width im)))
  /\ (all_pixels im (0, 0, 0) ->
      non_padding (Z.to_nat (height im)) (Z.to_nat (leftBits im))
        (Z.to_nat (width im)) (Z.to_nat (rightBits im)) (pix_line (convert im))
      = repeat "1"%char (Z.to_nat (height im) * Z.to_nat (width im))).
Proof.
  split; intros Hall.
  - pose proof (all_pixels_luminance im 255 255 255 Hall) as Hlum.
    rewrite non_padding_convert.
    + rewrite (payload_const im "0"%char), length_range; [reflexivity|].
      intros x y sw Hx Hy. apply in_range_inv in Hx, Hy.
      now rewrite Hlum.
    + intros x y Hx Hy. rewrite Hlum by assumption. lia.
  - pose proof (all_pixels_luminance im 0 0 0 Hall) as Hlum.
    rewrite non_padding_convert.
    + rewrite (payload_const im "1"%char), length_range; [reflexivity|].
      intros x y sw Hx Hy. apply in_range_inv in Hx, Hy.
      now rewrite Hlum.
    + intros x y Hx Hy. rewrite Hlum by assumption. lia.
Qed.

Lemma C7_white_black_witness :
  non_padding 2 14 3 15 (pix_line (convert (uniform 3 2 (255, 255, 255))))
  = repeat "0"%char 6
  /\ non_padding 2 14 3 15 (pix_line (convert (uniform 3 2 (0, 0, 0))))
     = repeat "1"%char 6.
Proof.
  split.
  - apply (proj1 (C7_white_black (uniform 3 2 (255, 255, 255)))).
    intros x y _ _. reflexivity.
  - apply (proj2 (C7_white_black (uniform 3 2 (0, 0, 0)))).
    intros x y _ _. reflexivity.
Defined.

Lemma concat_repeat_zeros (l r h : nat) :
  concat (repeat (repeat "0"%char l ++ repeat "0"%char r) h)
  = repeat "0"%char (h * (l + r)).
Proof.
  induction h as [|h IH]; [reflexivity|].
  cbn [repeat concat Nat.mul]. rewrite IH, <- !repeat_app. reflexivity.
Qed.

(** C6. The parity flag advances exactly once per pixel of the scan,
    whatever band the pixel falls in; the padding bits are literal 0 and do
    not advance the flag; so for a uniform mid-tone image (every channel sum
    over 255 and at most 510) the non-padding bits, in scan order, are
    1, 0, 1, 0, ... *)
Theorem C6_dither_parity :
  (forall (im : image) (y : Z) (st : locals) (x : Z),
      switch (convert_pixel im y st x) = 1 - switch st)
  /\ (forall (im : image) (border : Z * Z) (left right : str) (st : locals) (y : Z),
         switch (convert_row im border left right st y)
         = flips (Z.to_nat (width im)) (switch st))
  /\ (forall im : image,
         switch (convert im)
         = Z.of_nat (Z.to_nat (height im) * Z.to_nat (width im)) mod 2)
  /\ (forall im : image,
         pixel_grid im ->
         padding (Z.to_nat (height im)) (Z.to_nat (leftBits im))
           (Z.to_nat (width im)) (Z.to_nat (rightBits im)) (pix_line (convert im))
         = repeat "0"%char
             (Z.to_nat (height im)
              * (Z.to_nat (leftBits im) + Z.to_nat (rightBits im))))
  /\ (forall im : image,
         (forall x y, 0 <= x < width im -> 0 <= y < height im ->
                      255 < luminance im x y <= 510) ->
         non_padding (Z.to_nat (height im)) (Z.to_nat (leftBits im))
           (Z.to_nat (width im)) (Z.to_nat (rightBits im)) (pix_line (convert im))
         = alternating (Z.to_nat (height im) * Z.to_nat (width im))).
Proof.
  repeat split.
  - intros im y st x. rewrite convert_pixel_eq. cbn [switch]. lia.
  - intros im border left right st y. unfold convert_row. cbn [switch].
    rewrite convert_pixels_eq. cbn [switch]. now rewrite length_range.
  - intros im. rewrite convert_eq. cbn [switch]. apply flips_parity.
  - intros im Hgrid. rewrite convert_eq. cbn [pix_line].
    rewrite <- (length_range (height im)) at 1.
    rewrite <- (repeat_length "0"%char (Z.to_nat (leftBits im))) at 1.
    rewrite <- (repeat_length "0"%char (Z.to_nat (rightBits im))) at 1.
    rewrite padding_scan_rows;
      [|apply pixel_grid_sums, Hgrid | apply in_range_inv | now left].
    rewrite length_range. apply concat_repeat_zeros.
  - intros im Hmid. rewrite non_padding_convert.
    + rewrite payload_mid, length_range; [apply toggled_alternating|].
      intros x y Hx Hy. apply in_range_inv in Hx, Hy. now apply Hmid.
    + intros x y Hx Hy. specialize (Hmid x y Hx Hy). lia.
Qed.

Lemma C6_dither_parity_witness :
  padding 2 14 3 15 (pix_line (convert (uniform 3 2 (100, 100, 100))))
  = repeat "0"%char 58
  /\ non_padding 2 14 3 15 (pix_line (convert (uniform 3 2 (100, 100, 100))))
     = lit "101010".
Proof.
  destruct C6_dither_parity as (_ & _ & _ & Hpad & Hmid). split.
  - apply (Hpad (uniform 3 2 (100, 100, 100))).
    unfold pixel_grid. cbn. repeat split; lia.
  - apply (Hmid (uniform 3 2 (100, 100, 100))).
    intros x y _ _. cbn. lia.
Defined.

(** * Further properties of the command set *)

(** ** Two-byte arguments *)

Lemma py_chr_byte (n : Z) : 0 <= n < 256 -> py_chr n = inr (chr n).
Proof.
  intros H. unfold py_chr.
  destruct (Z.leb_spec 0 n); [|lia]. destruct (Z.ltb_spec n 256); [|lia].
  reflexivity.
Qed.

Lemma py_chr_out (n : Z) :
  ~ 0 <= n < 256 -> py_chr n = inl (ValueError "chr() arg not in range(256)").
Proof.
  intros H. unfold py_chr.
  destruct (Z.leb_spec 0 n); destruct (Z.ltb_spec n 256); try reflexivity. lia.
Qed.

(** [nH = z >> 8] and [nL = z - (nH << 8)] are quotient and remainder. *)
Lemma split_bytes (z : Z) :
  Z.shiftr z 8 = z / 256
  /\ z - Z.shiftl (Z.shiftr z 8) 8 = z mod 256
  /\ 0 <= z mod 256 < 256.
Proof.
  rewrite Z.shiftr_div_pow2, Z.shiftl_mul_pow2 by lia.
  change (2 ^ 8) with 256.
  pose proof (Z.div_mod z 256 ltac:(lia)).
  pose proof (Z.mod_pos_bound z 256 ltac:(lia)).
  repeat split; lia.
Qed.

Lemma split_bytes_high (z : Z) : 0 <= z / 256 < 256 <-> 0 <= z <= 65535.
Proof.
  pose proof (Z.div_mod z 256 ltac:(lia)).
  pose proof (Z.mod_pos_bound z 256 ltac:(lia)).
  split; intros; lia.
Qed.

(** What the three two-byte methods do once their own test has passed. *)
Lemma two_bytes_write (prefix : str) (z : Z) (p : printer) :
  (cL <- lift (py_chr (z - Z.shiftl (Z.shiftr z 8) 8)) ;;
   cH <- lift (py_chr (Z.shiftr z 8)) ;;
   _write (prefix ++ [cL] ++ [cH])) p
  = if (0 <=? z) && (z <=? 65535)
    then (add_writes p [prefix ++ [chr (z mod 256); chr (z / 256)]], Ok tt)
    else (p, Raise (ValueError "chr() arg not in range(256)")).
Proof.
  destruct (split_bytes z) as (-> & -> & Hlo).
  unfold bind at 1. rewrite py_chr_byte by exact Hlo. cbn [lift ret].
  unfold bind.
  destruct (Z.leb_spec 0 z); destruct (Z.leb_spec z 65535); cbn [andb];
    try (rewrite py_chr_out by (rewrite split_bytes_high; lia); reflexivity).
  rewrite py_chr_byte by (rewrite split_bytes_high; lia). reflexivity.
Qed.

Lemma two_bytes_value (z : Z) :
  0 <= z <= 65535 ->
  ord (chr (z mod 256)) + 256 * ord (chr (z / 256)) = z.
Proof.
  intros H.
  pose proof (Z.div_mod z 256 ltac:(lia)).
  pose proof (Z.mod_pos_bound z 256 ltac:(lia)).
  rewrite !ord_chr by (try apply split_bytes_high; lia). lia.
Qed.

(** X1. [leftMargin] accepts exactly the [int] values 0..65535.  An
    accepted value is sent as one write, GS L nL nH, with
    nL + 256 * nH the value; any other argument raises the [ValueError] of
    the method and nothing is written. *)
Theorem X1_leftMargin (v : pyval) (p : printer) :
  (type_is_int v = true /\ 0 <= num v <= 65535 ->
   leftMargin v p
   = (add_writes p [_GS ++ lit "L" ++ [chr (num v mod 256); chr (num v / 256)]],
      Ok tt)
   /\ ord (chr (num v mod 256)) + 256 * ord (chr (num v / 256)) = num v)
  /\ (~ (type_is_int v = true /\ 0 <= num v <= 65535) ->
      leftMargin v p
      = (p, Raise (ValueError "leftMargin must be a int between 0 and 65535"))).
Proof.
  unfold leftMargin. split.
  - intros [Ht Hr]. rewrite Ht.
    destruct (Z.leb_spec 0 (num v)); [|lia].
    destruct (Z.leb_spec (num v) 65535); [|lia].
    cbn [andb negb orb].
    split; [|now apply two_bytes_value].
    etransitivity; [exact (two_bytes_write (_GS ++ lit "L") (num v) p)|].
    destruct (Z.leb_spec 0 (num v)); [|lia].
    destruct (Z.leb_spec (num v) 65535); [|lia]. reflexivity.
  - intros Hn.
    destruct (type_is_int v); destruct (Z.leb_spec 0 (num v));
      destruct (Z.leb_spec (num v) 65535); cbn [andb negb orb]; try reflexivity.
    exfalso. apply Hn. split; [reflexivity | lia].
Qed.

Lemma X1_leftMargin_witness :
  leftMargin (PInt 300) fresh
  = (add_writes fresh [_GS ++ lit "L" ++ [chr 44; chr 1]], Ok tt)
  /\ leftMargin (PBool true) fresh
     = (fresh, Raise (ValueError "leftMargin must be a int between 0 and 65535")).
Proof.
  split.
  - apply (proj1 (X1_leftMargin (PInt 300) fresh)). cbn. split; [reflexivity | lia].
  - apply (proj2 (X1_leftMargin (PBool true) fresh)). cbn. intros [H _]. discriminate H.
Defined.

(** X2. [horizontalPosition] accepts exactly the [int] values 0..4095 and
    sends ESC $ nL nH with nL + 256 * nH the value, so nH is at most 15; any
    other argument raises a [ValueError] and nothing is written. *)
Theorem X2_horizontalPosition (v : pyval) (p : printer) :
  (type_is_int v = true /\ 0 <= num v <= 4095 ->
   horizontalPosition v p
   = (add_writes p [_ESC ++ lit "$" ++ [chr (num v mod 256); chr (num v / 256)]],
      Ok tt)
   /\ ord (chr (num v mod 256)) + 256 * ord (chr (num v / 256)) = num v
   /\ ord (chr (num v / 256)) <= 15)
  /\ (~ (type_is_int v = true /\ 0 <= num v <= 4095) ->
      horizontalPosition v p
      = (p, Raise (ValueError
                     ("horizontalPosition must be a int between 0 and 4095 and not "
                      ++ py_str v)))).
Proof.
  unfold horizontalPosition. split.
  - intros [Ht Hr]. rewrite Ht.
    destruct (Z.leb_spec 0 (num v)); [|lia].
    destruct (Z.leb_spec (num v) 4095); [|lia].
    cbn [andb negb orb].
    split.
    { etransitivity; [exact (two_bytes_write (_ESC ++ lit "$") (num v) p)|].
      destruct (Z.leb_spec 0 (num v)); [|lia].
      destruct (Z.leb_spec (num v) 65535); [|lia]. reflexivity. }
    split; [apply two_bytes_value; lia|].
    rewrite ord_chr by (apply split_bytes_high; lia).
    apply Z.lt_succ_r, Z.div_lt_upper_bound; lia.
  - intros Hn.
    destruct (type_is_int v); destruct (Z.leb_spec 0 (num v));
      destruct (Z.leb_spec (num v) 4095); cbn [andb negb orb]; try reflexivity.
    exfalso. apply Hn. split; [reflexivity | lia].
Qed.

Lemma X2_horizontalPosition_witness :
  horizontalPosition (PInt 4095) fresh
  = (add_writes fresh [_ESC ++ lit "$" ++ [chr 255; chr 15]], Ok tt)
  /\ horizontalPosition (PInt 4096) fresh
     = (fresh, Raise (ValueError
                        "horizontalPosition must be a int between 0 and 4095 and not 4096")).
Proof.
  split.
  - apply (proj1 (X2_horizontalPosition (PInt 4095) fresh)). cbn. split; [reflexivity | lia].
  - apply (proj2 (X2_horizontalPosition (PInt 4096) fresh)). cbn. intros [_ H]. lia.
Defined.

(** X3. [printAreaWidth] tests the type of its argument only.  An [int] in
    0..65535 is sent as GS W nL nH with nL + 256 * nH the value; for every
    other [int] the conversion of nH by [chr] raises a [ValueError] before
    the write, so a value that does not fit is never sent truncated; an
    argument of another type raises the [ValueError] of the method. *)
Theorem X3_printAreaWidth (p : printer) :
  (forall z : Z,
      0 <= z <= 65535 ->
      printAreaWidth (PInt z) p
      = (add_writes p [_GS ++ lit "W" ++ [chr (z mod 256); chr (z / 256)]], Ok tt)
      /\ ord (chr (z mod 256)) + 256 * ord (chr (z / 256)) = z)
  /\ (forall z : Z,
         ~ 0 <= z <= 65535 ->
         printAreaWidth (PInt z) p
         = (p, Raise (ValueError "chr() arg not in range(256)")))
  /\ (forall v : pyval,
         type_is_int v = false ->
         printAreaWidth v p = (p, Raise (ValueError "width must be a int"))).
Proof.
  unfold printAreaWidth. repeat split.
  - cbn [type_is_int negb num].
    etransitivity; [exact (two_bytes_write (_GS ++ lit "W") z p)|].
    destruct (Z.leb_spec 0 z); [|lia]. destruct (Z.leb_spec z 65535); [|lia].
    reflexivity.
  - now apply two_bytes_value.
  - intros z Hz. cbn [type_is_int negb num].
    etransitivity; [exact (two_bytes_write (_GS ++ lit "W") z p)|].
    destruct (Z.leb_spec 0 z); destruct (Z.leb_spec z 65535); cbn [andb];
      try reflexivity. lia.
  - intros v Hv. now rewrite Hv.
Qed.

Lemma X3_printAreaWidth_witness :
  printAreaWidth (PInt 513) fresh
  = (add_writes fresh [_GS ++ lit "W" ++ [chr 1; chr 2]], Ok tt)
  /\ printAreaWidth (PInt 65536) fresh
     = (fresh, Raise (ValueError "chr() arg not in range(256)"))
  /\ printAreaWidth (PInt (-1)) fresh
     = (fresh, Raise (ValueError "chr() arg not in range(256)"))
  /\ printAreaWidth (PLong 5) fresh
     = (fresh, Raise (ValueError "width must be a int")).
Proof.
  destruct (X3_printAreaWidth fresh) as (H1 & H2 & H3).
  split; [apply (H1 513); lia|].
  split; [apply (H2 65536); lia|].
  split; [apply (H2 (-1)); lia|].
  apply (H3 (PLong 5)). reflexivity.
Defined.

(** ** One-byte arguments *)

Lemma str_eqb_eq (a b : str) : str_eqb a b = true <-> a = b.
Proof.
  revert b. induction a as [|x a IH]; intros [|y b]; cbn [str_eqb];
    try (split; [discriminate | discriminate]); [tauto|].
  rewrite andb_true_iff, Ascii.eqb_eq, IH. split.
  - intros [-> ->]. reflexivity.
  - intros E. inversion E. auto.
Qed.

Lemma nibbles_all :
  forallb nibbles_ok (list_prod (range 16) (range 16)) = true.
Proof. vm_compute. reflexivity. Qed.

Lemma nibbles (a b : Z) :
  0 <= a < 16 -> 0 <= b < 16 -> Z.lor (Z.shiftl b 4) a = 16 * b + a.
Proof.
  intros Ha Hb.
  pose proof (proj1 (forallb_forall _ _) nibbles_all (a, b)) as H.
  apply Z.eqb_eq, H, in_prod; now apply in_range.
Qed.

(** X4. [textSize] accepts an [int] height and an [int] width, each in
    1..16, and sends GS ! n where the high four bits of n are width - 1 and
    the low four bits height - 1; any other arguments raise a [ValueError]
    and nothing is written. *)
Theorem X4_textSize (h w : pyval) (p : printer) :
  (type_is_int h = true /\ 1 <= num h <= 16
   /\ type_is_int w = true /\ 1 <= num w <= 16 ->
   exists c,
     textSize h w p = (add_writes p [_GS ++ lit "!" ++ [c]], Ok tt)
     /\ ord c / 16 = num w - 1 /\ ord c mod 16 = num h - 1)
  /\ (~ (type_is_int h = true /\ 1 <= num h <= 16
         /\ type_is_int w = true /\ 1 <= num w <= 16) ->
      exists msg, textSize h w p = (p, Raise (ValueError msg))).
Proof.
  unfold textSize. split.
  - intros (Hth & Hh & Htw & Hw). rewrite Hth, Htw.
    destruct (Z.ltb_spec 0 (num h)); [|lia].
    destruct (Z.ltb_spec (num h) 17); [|lia].
    destruct (Z.ltb_spec 0 (num w)); [|lia].
    destruct (Z.ltb_spec (num w) 17); [|lia].
    cbn [andb negb orb]. rewrite nibbles by lia.
    exists (chr (16 * (num w - 1) + (num h - 1))).
    unfold bind. rewrite py_chr_byte by lia. cbn [lift ret].
    rewrite ord_chr by lia. split; [reflexivity|].
    split.
    + rewrite Z.mul_comm, Z.div_add_l, Z.div_small by lia. lia.
    + rewrite Z.add_comm, Z.mul_comm, Z.mod_add, Z.mod_small by lia. reflexivity.
  - intros Hn.
    destruct (type_is_int h); destruct (type_is_int w);
      destruct (Z.ltb_spec 0 (num h)); destruct (Z.ltb_spec (num h) 17);
      destruct (Z.ltb_spec 0 (num w)); destruct (Z.ltb_spec (num w) 17);
      cbn [andb negb orb]; try (eexists; reflexivity).
    exfalso. apply Hn. repeat split; lia.
Qed.

Lemma X4_textSize_witness :
  (exists c,
      textSize (PInt 2) (PInt 3) fresh = (add_writes fresh [_GS ++ lit "!" ++ [c]], Ok tt)
      /\ ord c / 16 = 2 /\ ord c mod 16 = 1)
  /\ exists msg, textSize (PInt 17) (PInt 1) fresh = (fresh, Raise (ValueError msg)).
Proof.
  split.
  - apply (proj1 (X4_textSize (PInt 2) (PInt 3) fresh)). cbn. repeat split; lia.
  - apply (proj2 (X4_textSize (PInt 17) (PInt 1) fresh)). cbn. intros (_ & H & _). lia.
Defined.

(** X9. [charSpacing] accepts exactly the [int] values 1..256 and sends
    ESC SP n with n the value minus one, so every byte 0..255 can be sent;
    any other argument raises the [ValueError] of the method and nothing is
    written. *)
Theorem X9_charSpacing (v : pyval) (p : printer) :
  (type_is_int v = true /\ 1 <= num v <= 256 ->
   charSpacing v p = (add_writes p [_ESC ++ _SP ++ [chr (num v - 1)]], Ok tt)
   /\ ord (chr (num v - 1)) = num v - 1)
  /\ (~ (type_is_int v = true /\ 1 <= num v <= 256) ->
      charSpacing v p
      = (p, Raise (ValueError "charSpacing must be a int between 1 and 256"))).
Proof.
  unfold charSpacing. split.
  - intros [Ht Hr]. rewrite Ht.
    destruct (Z.ltb_spec 0 (num v)); [|lia].
    destruct (Z.ltb_spec (num v) 257); [|lia].
    cbn [andb negb orb]. unfold bind. rewrite py_chr_byte by lia.
    split; [reflexivity | apply ord_chr; lia].
  - intros Hn.
    destruct (type_is_int v); destruct (Z.ltb_spec 0 (num v));
      destruct (Z.ltb_spec (num v) 257); cbn [andb negb orb]; try reflexivity.
    exfalso. apply Hn. split; [reflexivity | lia].
Qed.

Lemma X9_charSpacing_witness :
  charSpacing (PInt 256) fresh = (add_writes fresh [_ESC ++ _SP ++ [chr 255]], Ok tt)
  /\ charSpacing (PInt 0) fresh
     = (fresh, Raise (ValueError "charSpacing must be a int between 1 and 256")).
Proof.
  split.
  - apply (proj1 (X9_charSpacing (PInt 256) fresh)). cbn. split; [reflexivity | lia].
  - apply (proj2 (X9_charSpacing (PInt 0) fresh)). cbn. intros [_ H]. lia.
Defined.




(** X11. [lineSpacing] accepts command set '+' or '3' with an [int] in
    0..255, and command set 'A' with an [int] in 0..85 only; it then sends
    ESC, the command set character and the value as one byte.  Every other
    combination raises a [ValueError] and nothing is written. *)
Theorem X11_lineSpacing (v : pyval) (commandSet : str) (p : printer) :
  (type_is_int v = true
   /\ ((commandSet = lit "+" \/ commandSet = lit "3") /\ 0 <= num v <= 255
       \/ commandSet = lit "A" /\ 0 <= num v <= 85) ->
   lineSpacing v commandSet p
   = (add_writes p [_ESC ++ commandSet ++ [chr (num v)]], Ok tt))
  /\ (~ (type_is_int v = true
         /\ ((commandSet = lit "+" \/ commandSet = lit "3") /\ 0 <= num v <= 255
             \/ commandSet = lit "A" /\ 0 <= num v <= 85)) ->
      exists msg, lineSpacing v commandSet p = (p, Raise (ValueError msg))).
Proof.
  unfold lineSpacing, str_in. cbn [existsb].
  split.
  - intros (Ht & [[[-> | ->] Hr] | [-> Hr]]); rewrite Ht; cbn [str_eqb lit list_ascii_of_string Ascii.eqb Bool.eqb andb orb negb];
      destruct (Z.leb_spec 0 (num v)); try lia;
      (destruct (Z.leb_spec (num v) 255); try lia);
      (destruct (Z.leb_spec (num v) 85); try lia);
      cbn [andb orb negb]; unfold bind; rewrite py_chr_byte by lia; reflexivity.
  - intros Hn.
    destruct (str_eqb commandSet (lit "+")) eqn:E1;
      destruct (str_eqb commandSet (lit "3")) eqn:E2;
      destruct (str_eqb commandSet (lit "A")) eqn:E3;
      cbn [andb orb negb]; try (eexists; reflexivity);
      try apply str_eqb_eq in E1; try apply str_eqb_eq in E2;
      try apply str_eqb_eq in E3;
      destruct (type_is_int v); destruct (Z.leb_spec 0 (num v));
      destruct (Z.leb_spec (num v) 255); destruct (Z.leb_spec (num v) 85);
      cbn [andb orb negb]; try (eexists; reflexivity);
      exfalso; apply Hn; (split; [reflexivity|]); try lia;
      ((left; split; [tauto | lia]) || (right; split; [tauto | lia])).
Qed.

Lemma X11_lineSpacing_witness :
  lineSpacing (PInt 85) (lit "A") fresh
  = (add_writes fresh [_ESC ++ lit "A" ++ [chr 85]], Ok tt)
  /\ exists msg, lineSpacing (PInt 86) (lit "A") fresh = (fresh, Raise (ValueError msg)).
Proof.
  split.
  - apply (proj1 (X11_lineSpacing (PInt 85) (lit "A") fresh)).
    split; [reflexivity|]. right. split; [reflexivity | cbn; lia].
  - apply (proj2 (X11_lineSpacing (PInt 86) (lit "A") fresh)).
    intros (_ & [[[H | H] _] | [_ H]]); try discriminate H. cbn in H. lia.
Defined.

(** ** Print mode *)

Lemma updatePrintMode_eq (self : generic) (p : printer) :
  _updatePrintMode self p
  = (add_writes p [_ESC ++ lit "!" ++ [chr (mode_byte self)]], Ok tt).
Proof.
  unfold _updatePrintMode, mode_byte.
  destruct (str_eqb (_textFont self) (lit "b")), (_textBold self),
    (_textDoubleHeight self), (_textDoubleWidth self), (_textUnderline self);
    reflexivity.
Qed.

(** X5. [_updatePrintMode] never raises and sends exactly ESC ! n, where n
    is below 128 and carries the underline flag in bit 0, double width in
    bit 1, double height in bit 2, bold in bit 3 and "the font is 'b'" in
    bit 6; bits 4 and 5 are never set. *)
Theorem X5_updatePrintMode (self : generic) (p : printer) :
  _updatePrintMode self p
  = (add_writes p [_ESC ++ lit "!" ++ [chr (mode_byte self)]], Ok tt)
  /\ ord (chr (mode_byte self)) = mode_byte self
  /\ 0 <= mode_byte self < 128
  /\ Z.testbit (mode_byte self) 0 = _textUnderline self
  /\ Z.testbit (mode_byte self) 1 = _textDoubleWidth self
  /\ Z.testbit (mode_byte self) 2 = _textDoubleHeight self
  /\ Z.testbit (mode_byte self) 3 = _textBold self
  /\ Z.testbit (mode_byte self) 4 = false
  /\ Z.testbit (mode_byte self) 5 = false
  /\ Z.testbit (mode_byte self) 6 = str_eqb (_textFont self) (lit "b").
Proof.
  split; [apply updatePrintMode_eq|].
  unfold mode_byte.
  destruct (str_eqb (_textFont self) (lit "b")), (_textBold self),
    (_textDoubleHeight self), (_textDoubleWidth self), (_textUnderline self);
    repeat split; try reflexivity; try lia.
Qed.

(** X6. With [usePrintMode] set, [bold] followed by [underline] sends the
    whole style byte twice: the second byte carries both new flags together
    with the font and size flags the object had, and the object records the
    two flags; the [doubleDot] argument has no effect. *)
Theorem X6_print_mode_setters (self : generic) (b u dd : bool) (p : printer) :
  usePrintMode self = true ->
  exists s1 s2,
    (self1 <- bold self (PBool b) ;; underline self1 (PBool u) (PBool dd)) p
    = (add_writes p [_ESC ++ lit "!" ++ [chr (mode_byte s1)];
                     _ESC ++ lit "!" ++ [chr (mode_byte s2)]],
       Ok s2)
    /\ mode_byte s1
       = mode_byte self + 8 * ((if b then 1 else 0) - (if _textBold self then 1 else 0))
    /\ mode_byte s2
       = mode_byte s1 + ((if u then 1 else 0) - (if _textUnderline self then 1 else 0))
    /\ _textBold s2 = b /\ _textUnderline s2 = u
    /\ _textFont s2 = _textFont self
    /\ _textDoubleHeight s2 = _textDoubleHeight self
    /\ _textDoubleWidth s2 = _textDoubleWidth self
    /\ usePrintMode s2 = true.
Proof.
  intros Hpm. unfold bold, underline. cbn [type_is_bool negb]. rewrite Hpm.
  eexists _, _. split.
  - unfold bind at 1. unfold bind at 1. rewrite updatePrintMode_eq.
    cbn [ret usePrintMode].
    unfold bind. rewrite updatePrintMode_eq. cbn [ret].
    rewrite add_writes_app. reflexivity.
  - unfold mode_byte. cbn [_textFont _textBold _textUnderline _textDoubleHeight
                             _textDoubleWidth usePrintMode].
    destruct b, u, (_textBold self), (_textUnderline self),
      (str_eqb (_textFont self) (lit "b")), (_textDoubleHeight self),
      (_textDoubleWidth self);
      repeat split; try reflexivity; lia.
Qed.

Lemma X6_print_mode_setters_witness :
  exists s1 s2,
    (self1 <- bold {| usePrintMode := true; _textFont := lit "b";
                      _textBold := false; _textUnderline := false;
                      _textDoubleHeight := true; _textDoubleWidth := false |}
                   (PBool true) ;;
     underline self1 (PBool true) (PBool true)) fresh
    = (add_writes fresh [_ESC ++ lit "!" ++ [chr (mode_byte s1)];
                         _ESC ++ lit "!" ++ [chr (mode_byte s2)]],
       Ok s2)
    /\ mode_byte s1 = 76 /\ mode_byte s2 = 77.
Proof.
  destruct (X6_print_mode_setters
              {| usePrintMode := true; _textFont := lit "b";
                 _textBold := false; _textUnderline := false;
                 _textDoubleHeight := true; _textDoubleWidth := false |}
              true true true fresh eq_refl)
    as (s1 & s2 & H1 & H2 & H3 & _).
  exists s1, s2. split; [exact H1|]. split; [exact H2|].
  rewrite H3, H2. reflexivity.
Defined.

(** X7. Without [usePrintMode], [doubleHeight] and [doubleWidth] called with
    a bool do nothing at all: they return normally, nothing is written and
    the object is unchanged; with an argument that is not a bool they raise
    a [ValueError]. *)
Theorem X7_double_size_without_print_mode (self : generic) (p : printer) :
  usePrintMode self = false ->
  (forall b : bool,
      doubleHeight self (PBool b) p = (p, Ok self)
      /\ doubleWidth self (PBool b) p = (p, Ok self))
  /\ (forall v : pyval,
         type_is_bool v = false ->
         doubleHeight self v p
         = (p, Raise (ValueError "doubleHeight must be True or False"))
         /\ doubleWidth self v p
            = (p, Raise (ValueError "doubleWidth must be True or False"))).
Proof.
  intros Hpm. unfold doubleHeight, doubleWidth. split.
  - intros b. cbn [type_is_bool negb]. rewrite Hpm. split; reflexivity.
  - intros v Hv. rewrite Hv. split; reflexivity.
Qed.

Lemma X7_double_size_without_print_mode_witness :
  doubleHeight Generic (PBool true) fresh = (fresh, Ok Generic)
  /\ doubleWidth Generic (PInt 1) fresh
     = (fresh, Raise (ValueError "doubleWidth must be True or False")).
Proof.
  destruct (X7_double_size_without_print_mode Generic fresh eq_refl) as [H1 H2].
  split.
  - apply (H1 true).
  - apply (H2 (PInt 1)). reflexivity.
Defined.

(** X8. [font] accepts 'a', 'b' and 'c' only.  Without [usePrintMode] it
    sends ESC M and the font number 0, 1 or 2.  With [usePrintMode] the
    style byte only says whether the font is 'b': font 'c' is recorded in
    the object but sends the very bytes font 'a' sends.  Any other font
    raises a [ValueError] and nothing is written. *)
Theorem X8_font (self : generic) (p : printer) :
  (usePrintMode self = false ->
   font self (lit "a") p = (add_writes p [_ESC ++ lit "M" ++ [chr 0]], Ok self)
   /\ font self (lit "b") p = (add_writes p [_ESC ++ lit "M" ++ [chr 1]], Ok self)
   /\ font self (lit "c") p = (add_writes p [_ESC ++ lit "M" ++ [chr 2]], Ok self))
  /\ (usePrintMode self = true ->
      fst (font self (lit "c") p) = fst (font self (lit "a") p)
      /\ (exists s, snd (font self (lit "c") p) = Ok s /\ _textFont s = lit "c")
      /\ (exists s, snd (font self (lit "a") p) = Ok s /\ _textFont s = lit "a"))
  /\ (forall f : str,
         f <> lit "a" -> f <> lit "b" -> f <> lit "c" ->
         font self f p = (p, Raise (ValueError "font must be 'a', 'b', 'c'"))).
Proof.
  split; [|split].
  - intros Hpm. unfold font. rewrite Hpm. repeat split; reflexivity.
  - intros Hpm. unfold font. rewrite Hpm.
    cbn [str_in _fontMap_keys existsb str_eqb lit list_ascii_of_string negb].
    change (Ascii.eqb "c" "a") with false. change (Ascii.eqb "c" "b") with false.
    change (Ascii.eqb "c" "c") with true. change (Ascii.eqb "a" "a") with true.
    cbn [andb orb negb]. unfold bind. rewrite !updatePrintMode_eq.
    cbn [ret fst snd]. repeat split.
    + eexists. split; reflexivity.
    + eexists. split; reflexivity.
  - intros f Ha Hb Hc. unfold font, str_in, _fontMap_keys. cbn [existsb].
    destruct (str_eqb f (lit "a")) eqn:Ea; [apply str_eqb_eq in Ea; contradiction|].
    destruct (str_eqb f (lit "b")) eqn:Eb; [apply str_eqb_eq in Eb; contradiction|].
    destruct (str_eqb f (lit "c")) eqn:Ec; [apply str_eqb_eq in Ec; contradiction|].
    reflexivity.
Qed.

Lemma X8_font_witness :
  font Generic (lit "c") fresh = (add_writes fresh [_ESC ++ lit "M" ++ [chr 2]], Ok Generic)
  /\ font Generic (lit "d") fresh
     = (fresh, Raise (ValueError "font must be 'a', 'b', 'c'")).
Proof.
  destruct (X8_font Generic fresh) as (H1 & _ & H3). split.
  - apply (H1 eq_refl).
  - apply (H3 (lit "d")); discriminate.
Defined.

(** X12. [cutPaper] tests the cut before the feed.  For a cut 'partial' or
    'full' and a bool feed it sends GS V n with n = 0 (full), 1 (partial),
    65 (feed and full) or 66 (feed and partial); another cut, or a feed that
    is not a bool, raises a [ValueError] and nothing is written. *)
Theorem X12_cutPaper (p : printer) :
  (forall feed : bool,
      cutPaper (lit "full") (PBool feed) p
      = (add_writes p [_GS ++ lit "V" ++ [chr (if feed then 65 else 0)]], Ok tt)
      /\ cutPaper (lit "partial") (PBool feed) p
         = (add_writes p [_GS ++ lit "V" ++ [chr (if feed then 66 else 1)]], Ok tt))
  /\ (forall (cut : str) (feed : pyval),
         cut <> lit "partial" -> cut <> lit "full" ->
         cutPaper cut feed p
         = (p, Raise (ValueError "cut must be 'partial' or 'full'")))
  /\ (forall (cut : str) (feed : pyval),
         cut = lit "partial" \/ cut = lit "full" ->
         type_is_bool feed = false ->
         cutPaper cut feed p = (p, Raise (ValueError "feed must be True or False"))).
Proof.
  split; [|split].
  - intros [|]; split; reflexivity.
  - intros cut feed Hp Hf. unfold cutPaper, str_in. cbn [existsb].
    destruct (str_eqb cut (lit "partial")) eqn:E1; [apply str_eqb_eq in E1; contradiction|].
    destruct (str_eqb cut (lit "full")) eqn:E2; [apply str_eqb_eq in E2; contradiction|].
    reflexivity.
  - intros cut feed [-> | ->] Hf; unfold cutPaper; rewrite Hf; reflexivity.
Qed.

Lemma X12_cutPaper_witness :
  cutPaper (lit "half") (PInt 1) fresh
  = (fresh, Raise (ValueError "cut must be 'partial' or 'full'"))
  /\ cutPaper (lit "full") (PInt 1) fresh
     = (fresh, Raise (ValueError "feed must be True or False")).
Proof.
  destruct (X12_cutPaper fresh) as (_ & H2 & H3). split.
  - apply (H2 (lit "half") (PInt 1)); discriminate.
  - apply (H3 (lit "full") (PInt 1)); [now right | reflexivity].
Defined.

(** * Further properties of the image encoder *)

(** X13. The padded width is the least multiple of 32 that is not below the
    width: no multiple of 32 lies between the width and
    leftBits + width + rightBits, and the left padding is half the deficit,
    rounded down. *)
Theorem X13_padding_minimal (w : Z) :
  (fst (_check_image_size w) + w + snd (_check_image_size w)) mod 32 = 0
  /\ w <= fst (_check_image_size w) + w + snd (_check_image_size w)
  /\ (forall m : Z,
         m mod 32 = 0 -> w <= m ->
         fst (_check_image_size w) + w + snd (_check_image_size w) <= m)
  /\ fst (_check_image_size w)
     = (fst (_check_image_size w) + snd (_check_image_size w)) / 2.
Proof.
  pose proof (check_image_size_cases w) as H.
  destruct (_check_image_size w) as [l r]. cbn [fst snd].
  destruct H as (Hl & Hr & Hm & Hd & Hlt).
  split; [exact Hm|]. split; [lia|]. split.
  - intros m Hm32 Hwm.
    pose proof (Z.div_mod m 32 ltac:(lia)) as E1.
    pose proof (Z.div_mod (l + w + r) 32 ltac:(lia)) as E2.
    rewrite Hm32 in E1. rewrite Hm in E2. lia.
  - destruct Hd as [Hd | Hd].
    + replace (l + r) with (l * 2) by lia. now rewrite Z.div_mul by lia.
    + replace (l + r) with (1 + l * 2) by lia.
      rewrite Z.div_add, Z.div_small by lia. lia.
Qed.

Lemma X13_padding_minimal_witness :
  fst (_check_image_size 33) + 33 + snd (_check_image_size 33) <= 64.
Proof.
  apply (proj1 (proj2 (proj2 (X13_padding_minimal 33))) 64); [reflexivity | lia].
Defined.

(** X14. The [elif] fallback of the threshold loop can never fire: a pixel
    whose channel sum exceeds 765 gets no bit at all, although it is counted
    in [img_size] and toggles the flag. *)
Theorem X14_out_of_band_pixel (im : image) (y x : Z) (st : locals) :
  765 < luminance im x y ->
  pix_line (convert_pixel im y st x) = pix_line st
  /\ switch (convert_pixel im y st x) = 1 - switch st
  /\ img_size (convert_pixel im y st x) = (fst (img_size st) + 1, snd (img_size st)).
Proof.
  intros H. rewrite convert_pixel_eq. cbn [pix_line switch img_size].
  unfold band_bits.
  destruct (Z.leb_spec (luminance im x y) 255); [lia|].
  destruct (Z.leb_spec (luminance im x y) 510); [lia|].
  destruct (Z.leb_spec (luminance im x y) 765); [lia|].
  rewrite app_nil_r. repeat split. lia.
Qed.

Lemma X14_out_of_band_pixel_witness :
  pix_line (convert_pixel (uniform 1 1 (300, 300, 300)) 0
              {| pix_line := lit "01"; switch := 0; img_size := (2, 1) |} 0)
  = lit "01".
Proof.
  apply (X14_out_of_band_pixel (uniform 1 1 (300, 300, 300)) 0 0
           {| pix_line := lit "01"; switch := 0; img_size := (2, 1) |}).
  cbn. lia.
Defined.

(** X15. An image of height 0 passes validation; the preamble is written
    and then the header computation divides by the height: the call raises
    [ZeroDivisionError] with the preamble already in the sink. *)
Theorem X15_zero_height (im : image) (p : printer) :
  height im = 0 ->
  _convert_and_print_image im p
  = (add_writes (warned im p) [_image_size_1x1], Raise ZeroDivisionError).
Proof.
  intros Hh. rewrite convert_and_print_accepted by lia.
  rewrite convert_eq. cbn [pix_line img_size]. rewrite Hh.
  unfold _print_image, bind. cbn [_write fst snd Z.to_nat Z.of_nat py_div].
  reflexivity.
Qed.

Lemma X15_zero_height_witness :
  _convert_and_print_image (uniform 8 0 (0, 0, 0)) fresh
  = (add_writes fresh [_image_size_1x1], Raise ZeroDivisionError).
Proof.
  apply (X15_zero_height (uniform 8 0 (0, 0, 0)) fresh). reflexivity.
Defined.

Lemma a2b_hex_odd (n : nat) :
  forall s, length s = S (2 * n) -> a2b_hex s = None.
Proof.
  induction n as [|n IH]; intros s Hs.
  - destruct s as [|x [|]]; try discriminate. reflexivity.
  - destruct s as [|h [|l s]]; try discriminate.
    cbn [a2b_hex]. rewrite IH by (cbn [length] in Hs; lia).
    destruct (unhex h); [destruct (unhex l)|]; reflexivity.
Qed.

Lemma hex3_all : forallb hex3_ok (range 4096) = true.
Proof. vm_compute. reflexivity. Qed.

Lemma fmt_02X_three (v : Z) : 256 <= v < 4096 -> length (fmt_02X v) = 3%nat.
Proof.
  intros H.
  pose proof (proj1 (forallb_forall _ _) hex3_all v (in_range 4096 v ltac:(lia))) as E.
  unfold hex3_ok in E. destruct (Z.ltb_spec v 256); [lia|].
  now apply Nat.eqb_eq in E.
Qed.

Lemma fmt_02X_two (v : Z) : 0 <= v < 256 -> length (fmt_02X v) = 2%nat.
Proof.
  intros H.
  pose proof (proj1 (forallb_forall _ _) byte_hex_all v (in_range 256 v H)) as E.
  unfold byte_hex_ok in E.
  destruct (fmt_02X v) as [|a [|b [|]]]; try discriminate. reflexivity.
Qed.

(** X16. An image of height 1..255 and width 2017..32736 passes validation
    with the warning, but its row byte count needs three hexadecimal digits:
    the header text has odd length, decoding it raises [TypeError], and the
    sink is left with the preamble alone. *)
Theorem X16_wide_image (im : image) (p : printer) :
  2017 <= width im <= 32736 -> 1 <= height im <= 255 ->
  _convert_and_print_image im p
  = (add_writes (warned im p) [_image_size_1x1],
     Raise (TypeError "Odd-length string or non-hexadecimal digit"))
  /\ stdout (warned im p)
     = stdout p
       ++ ["WARNING: Image is wider than 512 and could be truncated at print time "%string].
Proof.
  intros Hw Hh. split.
  - rewrite convert_and_print_accepted by lia.
    rewrite convert_sizes by lia.
    pose proof (totalPaddedWidth_mod32 im) as Hm.
    pose proof (totalPaddedWidth_bound im) as Hb.
    pose proof (Z.div_mod (totalPaddedWidth im) 32 ltac:(lia)) as Hd.
    unfold _print_image. unfold bind at 1. cbn [_write].
    unfold bind at 1. unfold py_div. cbn [fst snd].
    destruct (Z.eqb_spec (height im) 0) as [E|_]; [lia|].
    cbn [lift ret]. rewrite (Z.mul_comm (height im)), Z.div_mul by lia.
    unfold bind at 1. unfold decode_hex.
    rewrite (a2b_hex_odd 4).
    + reflexivity.
    + rewrite !length_app, fmt_02X_three, !fmt_02X_two; try lia.
      split; [apply Z.div_le_lower_bound; lia | apply Z.div_lt_upper_bound; lia].
  - unfold warned. destruct (Z.gtb_spec (width im) 512); [reflexivity | lia].
Qed.

Lemma X16_wide_image_witness :
  _convert_and_print_image (uniform 2017 1 (0, 0, 0)) fresh
  = (add_writes (warned (uniform 2017 1 (0, 0, 0)) fresh) [_image_size_1x1],
     Raise (TypeError "Odd-length string or non-hexadecimal digit")).
Proof.
  apply (X16_wide_image (uniform 2017 1 (0, 0, 0)) fresh); cbn; lia.
Defined.

Lemma print_image_writes_only (line : str) (size : Z * Z) (p : printer) :
  exists ws, fst (_print_image line size p) = add_writes p ws.
Proof.
  unfold _print_image. unfold bind at 1. cbn [_write].
  fold (add_writes p [_image_size_1x1]).
  unfold bind at 1.
  destruct (py_div (fst size) (snd size)) as [e|q]; cbn [lift raise ret].
  { eexists. reflexivity. }
  unfold bind at 1.
  destruct (decode_hex _) as [e|d]; cbn [lift raise ret].
  { eexists. reflexivity. }
  unfold bind at 1. cbn [_write].
  fold (add_writes (add_writes p [_image_size_1x1]) [d]).
  rewrite add_writes_app.
  destruct (print_image_loop_writes (S (length line)) line 0 0 []
              (add_writes p ([_image_size_1x1] ++ [d]))) as [ws Hws].
  unfold bind.
  destruct (print_image_loop (S (length line)) line 0 0 [] _) as [p' [a|e|]];
    cbn [fst] in *; subst p'; rewrite add_writes_app; eexists; reflexivity.
Qed.

(** X17. The warning about the width is printed on standard output exactly
    when the width exceeds 512, once, whether the image is then encoded,
    rejected for its height or fails later; nothing else is ever printed. *)
Theorem X17_width_warning (im : image) (p : printer) :
  stdout (fst (_convert_and_print_image im p))
  = stdout p
    ++ (if width im >? 512
        then ["WARNING: Image is wider than 512 and could be truncated at print time "%string]
        else []).
Proof.
  destruct (Z.gtb_spec (height im) 255) as [Hh | Hh].
  - unfold _convert_and_print_image, height, width in *.
    destruct (Z.gtb_spec (snd (size im)) 255) as [_|]; [|lia].
    unfold bind. destruct (fst (size im) >? 512); cbn; [reflexivity|].
    now rewrite app_nil_r.
  - rewrite convert_and_print_accepted by lia.
    destruct (print_image_writes_only (pix_line (convert im)) (img_size (convert im))
                (warned im p)) as [ws ->].
    cbn [add_writes stdout]. unfold warned.
    destruct (width im >? 512); cbn [stdout]; [reflexivity|].
    now rewrite app_nil_r.
Qed.

Lemma concat_length_4 (groups : list str) :
  Forall (fun w => length w = 4%nat) groups ->
  length (concat groups) = (4 * length groups)%nat.
Proof.
  induction 1 as [|g groups Hg _ IH]; [reflexivity|].
  cbn [concat length]. rewrite length_app, Hg, IH. lia.
Qed.

(** X18. For an RGB image of height 1..255 and width 0..2016 the call
    returns normally and the sink receives, in order: the preamble, the
    header [totalPaddedWidth / 8, 0, height, 0], and
    height x totalPaddedWidth / 32 data writes of 4 bytes each; the data
    bytes, re-expanded most significant bit first, are the padded bit
    stream of the image. *)
Theorem X18_wire_format (im : image) (p : printer) :
  pixel_grid im -> width im <= 2016 -> 1 <= height im <= 255 ->
  exists groups,
    _convert_and_print_image im p
    = (add_writes (warned im p)
         ([_image_size_1x1;
           [chr (totalPaddedWidth im / 8); chr 0; chr (height im); chr 0]]
          ++ groups),
       Ok tt)
    /\ Forall (fun w => length w = 4%nat) groups
    /\ Z.of_nat (length groups) = height im * (totalPaddedWidth im / 32)
    /\ expand (concat groups) = pix_line (convert im).
Proof.
  intros Hgrid Hw Hh.
  pose proof Hgrid as (Hw0 & Hh0 & _).
  destruct (convert_header_ok im ltac:(lia) Hh) as [Hok Hhdr].
  pose proof (pix_line_length im Hw0 Hh0 (pixel_grid_sums im Hgrid)) as Hlen.
  pose proof (pix_line_bits im) as Hb.
  pose proof (totalPaddedWidth_mod32 im) as Hm.
  pose proof (Z.div_mod (totalPaddedWidth im) 32 ltac:(lia)) as Hd.
  rewrite Hm, Z.add_0_r in Hd.
  set (line := pix_line (convert im)) in *.
  set (k := height im * (totalPaddedWidth im / 32)).
  assert (Hk : Z.of_nat (length line) = 32 * k) by (unfold k; lia).
  assert (Hk0 : 0 <= k) by lia.
  assert (Hn : length line = (8 * (4 * Z.to_nat k))%nat) by lia.
  destruct (chunk_values_bytes (4 * Z.to_nat k) line Hb Hn) as (_ & Hcl & Hexp).
  destruct (group4_full (chunk_values (4 * Z.to_nat k) line)) as (G1 & G2 & _).
  rewrite Hcl in G2.
  replace (4 * Z.to_nat k / 4)%nat with (Z.to_nat k) in G2
    by (rewrite Nat.mul_comm, Nat.div_mul; lia).
  rewrite firstn_all2 in G2 by (rewrite length_map, Hcl; lia).
  exists (fst (group4 [] (chunk_values (4 * Z.to_nat k) line))).
  split; [|split; [exact G1|split]].
  - rewrite convert_and_print_accepted by lia. fold line.
    rewrite (print_image_bits (4 * Z.to_nat k)); trivial.
    now rewrite Hhdr.
  - pose proof (concat_length_4 _ G1) as Hc.
    rewrite G2, length_map, Hcl in Hc. lia.
  - rewrite G2. exact Hexp.
Qed.

Lemma X18_wire_format_witness :
  exists groups,
    _convert_and_print_image (uniform 40 2 (10, 20, 30)) fresh
    = (add_writes fresh ([_image_size_1x1; [chr 8; chr 0; chr 2; chr 0]] ++ groups),
       Ok tt)
    /\ Z.of_nat (length groups) = 4
    /\ expand (concat groups) = pix_line (convert (uniform 40 2 (10, 20, 30))).
Proof.
  destruct (X18_wire_format (uniform 40 2 (10, 20, 30)) fresh)
    as (groups & H1 & _ & H3 & H4).
  - unfold pixel_grid. cbn. repeat split; lia.
  - cbn; lia.
  - cbn; lia.
  - exists groups. repeat split; assumption.
Defined.

(** *** The loop on any string of bits *)

Lemma print_image_loop_no_raise (fuel : nat) :
  forall line i cont pend p e,
    bits line -> 0 <= i ->
    Forall (fun v => 0 <= v < 256) pend ->
    snd (print_image_loop fuel line i cont (hex_of pend) p) <> Raise e.
Proof.
  induction fuel as [|fuel IH]; intros line i cont pend p e Hb Hi Hp;
    cbn [print_image_loop]; [cbn; discriminate|].
  destruct (Z.ltb_spec i (Z.of_nat (length line))); [|cbn; discriminate].
  set (chunk := slice line i (i + 8)).
  assert (Hchunk : bits chunk /\ chunk <> [] /\ (length chunk <= 8)%nat).
  { unfold chunk, slice. replace (Z.to_nat (i + 8 - i)) with 8%nat by lia.
    split; [apply bits_firstn, bits_skipn, Hb|].
    split.
    - intros E. apply (f_equal (@length ascii)) in E.
      rewrite length_firstn, length_skipn in E. cbn [length] in E. lia.
    - rewrite length_firstn. lia. }
  destruct Hchunk as (Hcb & Hne & Hcl).
  destruct (int_base2_bits chunk Hcb Hne) as [Hint Hv].
  assert (Hv' : 0 <= bin_value chunk < 256).
  { split; [lia|]. eapply Z.lt_le_trans; [apply Hv|].
    change 256 with (2 ^ 8). apply Z.pow_le_mono_r; lia. }
  unfold bind at 1. rewrite Hint. cbn [lift ret].
  assert (Hhex : hex_of pend ++ fmt_02X (bin_value chunk)
                 = hex_of (pend ++ [bin_value chunk])).
  { unfold hex_of. rewrite flat_map_app. cbn. now rewrite app_nil_r. }
  rewrite Hhex.
  assert (Hp' : Forall (fun v => 0 <= v < 256) (pend ++ [bin_value chunk])).
  { apply Forall_app. split; [exact Hp | repeat constructor; lia]. }
  destruct ((cont + 1) mod 4 =? 0).
  - unfold bind, decode_hex. rewrite a2b_hex_hex_of by exact Hp'.
    cbn [lift ret _write]. apply (IH line (i + 8) 0 [] _ e Hb); [lia | constructor].
  - apply IH; trivial. lia.
Qed.

(** X19. On a string of binary digits of any length, also one that is not a
    multiple of 8, and with header fields that fit their bytes,
    [_print_image] returns normally: neither the parsing of a slice nor the
    decoding of a group can raise. *)
Theorem X19_print_image_returns (line : str) (size : Z * Z) (p : printer) :
  bits line -> header_ok size ->
  snd (_print_image line size p) = Ok tt.
Proof.
  intros Hb Hh. rewrite print_image_header by exact Hh.
  set (p1 := add_writes p [_image_size_1x1; header_of size]).
  pose proof (print_image_loop_fuel (length line) line 0 0 [] p1 ltac:(lia)) as Hf.
  pose proof (fun e => print_image_loop_no_raise (S (length line)) line 0 0 [] p1 e
                         Hb ltac:(lia) ltac:(constructor)) as Hr.
  change (hex_of []) with (@nil ascii) in Hr.
  unfold bind.
  destruct (print_image_loop (S (length line)) line 0 0 [] p1) as [p' [a|e|]];
    cbn [snd] in *.
  - reflexivity.
  - exfalso. now apply (Hr e).
  - contradiction.
Qed.

Lemma X19_print_image_returns_witness :
  snd (_print_image (lit "10111") (32, 1) fresh) = Ok tt.
Proof.
  apply (X19_print_image_returns (lit "10111") (32, 1) fresh).
  - repeat constructor; (now left) || (now right).
  - unfold header_ok. cbn. lia.
Defined.
